(** * Password_Generator.py: a shallow embedding and its properties

    The program is one Python class, [PasswordGenerator], whose methods
    read and write Tk variables and widgets, the file
    [password_history.json] and a destination chosen by the user.  The
    embedding keeps the methods' names and passes the application state
    explicitly.

    Python values are modelled as the program has them: a [str] is the
    list of its code points, an [int] is a [Z], the history is whatever
    [json.load] returned (a JSON value), and a raised exception is an
    outcome of its own. *)

From Stdlib Require Import List ZArith NArith Bool Lia String Ascii Arith.
From Stdlib Require Import DecimalString.
Import ListNotations.

Set Warnings "-register-all".

Open Scope Z_scope.

(** ** Python strings *)

(** A character is its Unicode code point; a [str] is a sequence of them. *)
Abbreviation char := N (only parsing).
Abbreviation str := (list N) (only parsing).

(** ASCII literals of the source are written as Rocq strings. *)
Definition lit (s : string) : str :=
  List.map N_of_ascii (list_ascii_of_string s).

Definition char_eqb (a b : char) : bool := N.eqb a b.

Fixpoint str_eqb (a b : str) : bool :=
  match a, b with
  | [], [] => true
  | x :: a', y :: b' => char_eqb x y && str_eqb a' b'
  | _, _ => false
  end.

(** [c in s] for a one-character [c]. *)
Definition char_in (c : char) (s : str) : bool := existsb (char_eqb c) s.

(** [len(s)] *)
Definition len {A} (s : list A) : Z := Z.of_nat (List.length s).

(** [string.ascii_uppercase], [string.ascii_lowercase], [string.digits] *)
Definition ascii_uppercase : str := lit "ABCDEFGHIJKLMNOPQRSTUVWXYZ".
Definition ascii_lowercase : str := lit "abcdefghijklmnopqrstuvwxyz".
Definition digits : str := lit "0123456789".

(** The symbol literal, which the source writes twice (lines 102 and 133). *)
Definition symbols : str := lit "!@#$%^&*()_+-=[]{}|;:,.<>?".

(** ** JSON values, as [json.load] builds them *)

Inductive json : Type :=
| JNull
| JBool (b : bool)
| JInt (z : Z)
| JFloat (literal : str)   (* a float, kept as the literal that denotes it *)
| JStr (s : str)
| JArr (items : list json)
| JObj (members : list (str * json)).   (* a dict, in insertion order *)

(** ** What the Python runtime supplies

    [str.islower], [str.isupper] and [str.isdigit] consult the Unicode
    database; on ASCII their value is fixed below, beyond ASCII it is
    taken from the tables here.  [float_repr] is [float.__repr__] of the
    float a literal denotes, [py_str] is [str()] of a value that is not
    a string. *)
Record Runtime : Type := {
  uni_islower : char -> bool;
  uni_isupper : char -> bool;
  uni_isdigit : char -> bool;
  float_repr : str -> str;
  py_str : json -> str;
  csv_quotes_cr : bool
}.

(** A runtime whose tables are empty beyond ASCII. *)
Definition ascii_runtime : Runtime :=
  {| uni_islower := fun _ => false;
     uni_isupper := fun _ => false;
     uni_isdigit := fun _ => false;
     float_repr := fun l => l;
     py_str := fun _ => lit "None";
     csv_quotes_cr := true |}.

(** ** The application state *)

Inductive py_exn : Type :=
| FileNotFoundError
| PermissionError
| JSONDecodeError
| IndexError
| AttributeError
| TypeError
| KeyError.

(** A call either returns or raises. *)
Inductive outcome (A : Type) : Type :=
| Returned (a : A)
| Raised (e : py_exn).
Arguments Returned {A} a.
Arguments Raised {A} e.

(** A path of the file system: missing, present but not to be opened,
    or a text file with its content. *)
Inductive file_state : Type :=
| Absent
| Denied
| Present (content : str).

Definition filesystem := str -> file_state.

Definition fs_write (path content : str) (fs : filesystem) : filesystem :=
  fun p => if str_eqb p path then Present content else fs p.

Inductive dialog : Type :=
| showwarning (title message : str)
| showinfo (title message : str).

Record App : Type := {
  length_var : Z;
  upper_var : bool;
  lower_var : bool;
  digits_var : bool;
  symbols_var : bool;
  password_entry : str;
  strength_label_text : str;
  strength_label_foreground : str;
  history : json;
  history_list : list str;
  disk : filesystem;
  dialogs : list dialog       (* message boxes shown, latest first *)
}.

Definition set_password_entry (v : str) (a : App) : App :=
  {| length_var := length_var a; upper_var := upper_var a;
     lower_var := lower_var a; digits_var := digits_var a;
     symbols_var := symbols_var a; password_entry := v;
     strength_label_text := strength_label_text a;
     strength_label_foreground := strength_label_foreground a;
     history := history a; history_list := history_list a;
     disk := disk a; dialogs := dialogs a |}.

Definition set_strength_label_text (v : str) (a : App) : App :=
  {| length_var := length_var a; upper_var := upper_var a;
     lower_var := lower_var a; digits_var := digits_var a;
     symbols_var := symbols_var a; password_entry := password_entry a;
     strength_label_text := v;
     strength_label_foreground := strength_label_foreground a;
     history := history a; history_list := history_list a;
     disk := disk a; dialogs := dialogs a |}.

Definition set_strength_label_foreground (v : str) (a : App) : App :=
  {| length_var := length_var a; upper_var := upper_var a;
     lower_var := lower_var a; digits_var := digits_var a;
     symbols_var := symbols_var a; password_entry := password_entry a;
     strength_label_text := strength_label_text a;
     strength_label_foreground := v;
     history := history a; history_list := history_list a;
     disk := disk a; dialogs := dialogs a |}.

Definition set_history (v : json) (a : App) : App :=
  {| length_var := length_var a; upper_var := upper_var a;
     lower_var := lower_var a; digits_var := digits_var a;
     symbols_var := symbols_var a; password_entry := password_entry a;
     strength_label_text := strength_label_text a;
     strength_label_foreground := strength_label_foreground a;
     history := v; history_list := history_list a;
     disk := disk a; dialogs := dialogs a |}.

Definition set_history_list (v : list str) (a : App) : App :=
  {| length_var := length_var a; upper_var := upper_var a;
     lower_var := lower_var a; digits_var := digits_var a;
     symbols_var := symbols_var a; password_entry := password_entry a;
     strength_label_text := strength_label_text a;
     strength_label_foreground := strength_label_foreground a;
     history := history a; history_list := v;
     disk := disk a; dialogs := dialogs a |}.

Definition set_disk (v : filesystem) (a : App) : App :=
  {| length_var := length_var a; upper_var := upper_var a;
     lower_var := lower_var a; digits_var := digits_var a;
     symbols_var := symbols_var a; password_entry := password_entry a;
     strength_label_text := strength_label_text a;
     strength_label_foreground := strength_label_foreground a;
     history := history a; history_list := history_list a;
     disk := v; dialogs := dialogs a |}.

Definition show (d : dialog) (a : App) : App :=
  {| length_var := length_var a; upper_var := upper_var a;
     lower_var := lower_var a; digits_var := digits_var a;
     symbols_var := symbols_var a; password_entry := password_entry a;
     strength_label_text := strength_label_text a;
     strength_label_foreground := strength_label_foreground a;
     history := history a; history_list := history_list a;
     disk := disk a; dialogs := d :: dialogs a |}.

(** ** The strength labels

    The three strings [check_strength] returns: a coloured circle
    (U+1F534, U+1F7E1, U+1F7E2), a space and a Russian word. *)
Definition label_weak : str :=
  [128308; 32; 1057; 1083; 1072; 1073; 1099; 1081]%N.
Definition label_medium : str :=
  [128993; 32; 1057; 1088; 1077; 1076; 1085; 1080; 1081]%N.
Definition label_strong : str :=
  [128994; 32; 1057; 1080; 1083; 1100; 1085; 1099; 1081]%N.

(** The categories of the specification and their rendering. *)
Inductive strength : Type := Weak | Medium | Strong.

Definition label_text (s : strength) : str :=
  match s with
  | Weak => label_weak
  | Medium => label_medium
  | Strong => label_strong
  end.

(** The specification's mapping from a score to a category. *)
Definition grade_of_score (score : Z) : strength :=
  match score with
  | 0 | 1 | 2 => Weak
  | 3 | 4 => Medium
  | _ => Strong
  end.

Definition b2z (b : bool) : Z := if b then 1 else 0.

Section Program.

Variable rt : Runtime.

(** ** Character classes *)

Definition is_ascii (c : char) : bool := (c <? 128)%N.

(** [c.islower()], [c.isupper()], [c.isdigit()] for one character. *)
Definition islower (c : char) : bool :=
  if is_ascii c then (97 <=? c)%N && (c <=? 122)%N else uni_islower rt c.
Definition isupper (c : char) : bool :=
  if is_ascii c then (65 <=? c)%N && (c <=? 90)%N else uni_isupper rt c.
Definition isdigit (c : char) : bool :=
  if is_ascii c then (48 <=? c)%N && (c <=? 57)%N else uni_isdigit rt c.

(** ** check_strength (lines 123-144) *)

(** Lines 124-134: the score. *)
Definition strength_score (password : str) : Z :=
  let score := 0 in
  let score := if 12 <=? len password then score + 1 else score in
  let score := if existsb islower password then score + 1 else score in
  let score := if existsb isupper password then score + 1 else score in
  let score := if existsb isdigit password then score + 1 else score in
  let score :=
    if existsb (fun c => char_in c symbols) password then score + 1
    else score in
  score.

(** Lines 136-144: the label returned, and the colour given to the
    strength label on the way. *)
Definition check_strength (password : str) (self : App) : str * App :=
  let score := strength_score password in
  if score <=? 2 then
    (label_weak, set_strength_label_foreground (lit "red") self)
  else if score <=? 4 then
    (label_medium, set_strength_label_foreground (lit "orange") self)
  else
    (label_strong, set_strength_label_foreground (lit "green") self).

(** ** json.dump(self.history, f, indent=2)

    The encoder of Python's [json] module with its defaults
    ([ensure_ascii=True]) and [indent=2], for which the separators are
    a comma and a colon followed by a space. *)

Definition hex_digit (n : N) : char :=
  if (n <? 10)%N then (48 + n)%N else (87 + n)%N.

(** ['{0:04x}'.format(n)] for [n < 0x10000] *)
Definition hex4 (n : N) : str :=
  [hex_digit (N.land (N.shiftr n 12) 15); hex_digit (N.land (N.shiftr n 8) 15);
   hex_digit (N.land (N.shiftr n 4) 15); hex_digit (N.land n 15)].

Definition backslash_u (n : N) : str := [92; 117]%N ++ hex4 n.

(** The replacement of one character by [py_encode_basestring_ascii]:
    quote, backslash and the control characters with a short escape are
    escaped by a backslash, printable ASCII is kept, and everything else
    becomes one [\uXXXX], or two (a surrogate pair) beyond the BMP. *)
Definition escape_char (c : char) : str :=
  if (c =? 34)%N then [92; 34]%N
  else if (c =? 92)%N then [92; 92]%N
  else if (c =? 10)%N then [92; 110]%N
  else if (c =? 13)%N then [92; 114]%N
  else if (c =? 9)%N then [92; 116]%N
  else if (c =? 8)%N then [92; 98]%N
  else if (c =? 12)%N then [92; 102]%N
  else if (32 <=? c)%N && (c <=? 126)%N then [c]
  else if (c <? 65536)%N then backslash_u c
  else
    let n := (c - 65536)%N in
    backslash_u (N.lor 55296 (N.land (N.shiftr n 10) 1023))
    ++ backslash_u (N.lor 56320 (N.land n 1023)).

Definition encode_basestring_ascii (s : str) : str :=
  [34%N] ++ flat_map escape_char s ++ [34%N].

(** [int.__repr__] *)
Definition int_repr (z : Z) : str :=
  lit (NilZero.string_of_int (Z.to_int z)).

(** ['\n' + indent * level] with [indent] two spaces *)
Definition newline_indent (level : nat) : str :=
  10%N :: repeat 32%N (2 * level).

(** [sep.join(parts)] *)
Fixpoint join (sep : str) (parts : list str) : str :=
  match parts with
  | [] => []
  | [p] => p
  | p :: ps => p ++ sep ++ join sep ps
  end.

Fixpoint iterencode (level : nat) (o : json) : str :=
  match o with
  | JStr s => encode_basestring_ascii s
  | JNull => lit "null"
  | JBool true => lit "true"
  | JBool false => lit "false"
  | JInt z => int_repr z
  | JFloat l => float_repr rt l
  | JArr [] => lit "[]"
  | JArr items =>
      lit "[" ++ newline_indent (S level)
      ++ join (lit "," ++ newline_indent (S level))
              (List.map (iterencode (S level)) items)
      ++ newline_indent level ++ lit "]"
  | JObj [] => lit "{}"
  | JObj members =>
      lit "{" ++ newline_indent (S level)
      ++ join (lit "," ++ newline_indent (S level))
              (List.map (fun kv => encode_basestring_ascii (fst kv) ++ lit ": "
                                   ++ iterencode (S level) (snd kv)) members)
      ++ newline_indent level ++ lit "}"
  end.

Definition json_dump (o : json) : str := iterencode 0 o.

(** ** json.load(f)

    The decoder of Python's [json] module.  A decoding error is [None].
    The nesting of arrays and objects is followed with fuel;
    [json_loads] gives twice the length of the text, which is enough
    ([json_loads_enough_fuel]). *)

Definition is_ws (c : char) : bool :=
  (c =? 32)%N || (c =? 9)%N || (c =? 10)%N || (c =? 13)%N.

Fixpoint skip_ws (s : str) : str :=
  match s with
  | c :: r => if is_ws c then skip_ws r else s
  | [] => []
  end.

Definition hex_value (c : char) : option N :=
  if (48 <=? c)%N && (c <=? 57)%N then Some (c - 48)%N
  else if (97 <=? c)%N && (c <=? 102)%N then Some (c - 87)%N
  else if (65 <=? c)%N && (c <=? 70)%N then Some (c - 55)%N
  else None.

Definition decode_uXXXX (a b c d : char) : option N :=
  match hex_value a, hex_value b, hex_value c, hex_value d with
  | Some x, Some y, Some z, Some w =>
      Some (N.lor (N.shiftl x 12) (N.lor (N.shiftl y 8) (N.lor (N.shiftl z 4) w)))
  | _, _, _, _ => None
  end.

Definition is_high_surrogate (u : N) : bool := (55296 <=? u)%N && (u <=? 56319)%N.
Definition is_low_surrogate (u : N) : bool := (56320 <=? u)%N && (u <=? 57343)%N.

Definition join_surrogates (hi lo : N) : N :=
  (65536 + N.lor (N.shiftl (hi - 55296) 10) (lo - 56320))%N.

(** The [BACKSLASH] table of the decoder. *)
Definition unescape (e : char) : option char :=
  if (e =? 34)%N then Some 34%N
  else if (e =? 92)%N then Some 92%N
  else if (e =? 47)%N then Some 47%N
  else if (e =? 98)%N then Some 8%N
  else if (e =? 102)%N then Some 12%N
  else if (e =? 110)%N then Some 10%N
  else if (e =? 114)%N then Some 13%N
  else if (e =? 116)%N then Some 9%N
  else None.

Definition cons_to (c : char) (r : option (str * str)) : option (str * str) :=
  match r with
  | Some (s, rest) => Some (c :: s, rest)
  | None => None
  end.

(** [scanstring], strict, from just after the opening quote: the string
    read and the text after its closing quote. *)
Fixpoint scanstring (s : str) : option (str * str) :=
  match s with
  | [] => None
  | c :: r =>
      if (c =? 34)%N then Some ([], r)
      else if (c =? 92)%N then
        match r with
        | [] => None
        | e :: r1 =>
            if (e =? 117)%N then
              match r1 with
              | a :: b :: c1 :: d :: r2 =>
                  match decode_uXXXX a b c1 d with
                  | None => None
                  | Some uni =>
                      if is_high_surrogate uni then
                        match r2 with
                        | bs :: u :: a2 :: b2 :: c2 :: d2 :: r3 =>
                            if (bs =? 92)%N && (u =? 117)%N then
                              match decode_uXXXX a2 b2 c2 d2 with
                              | None => None
                              | Some uni2 =>
                                  if is_low_surrogate uni2
                                  then cons_to (join_surrogates uni uni2) (scanstring r3)
                                  else cons_to uni (scanstring r2)
                              end
                            else cons_to uni (scanstring r2)
                        | _ => cons_to uni (scanstring r2)
                        end
                      else cons_to uni (scanstring r2)
                  end
              | _ => None
              end
            else
              match unescape e with
              | Some ch => cons_to ch (scanstring r1)
              | None => None
              end
        end
      else if (c <? 32)%N then None
      else cons_to c (scanstring r)
  end.

Fixpoint strip_prefix (p s : str) : option str :=
  match p, s with
  | [], _ => Some s
  | x :: p', y :: s' => if char_eqb x y then strip_prefix p' s' else None
  | _ :: _, [] => None
  end.

Definition is_digit09 (c : char) : bool := (48 <=? c)%N && (c <=? 57)%N.

Fixpoint span_digits (s : str) : str * str :=
  match s with
  | c :: r =>
      if is_digit09 c then let (ds, rest) := span_digits r in (c :: ds, rest)
      else ([], s)
  | [] => ([], [])
  end.

Definition digits_value (ds : str) : Z :=
  fold_left (fun acc c => 10 * acc + (Z.of_N c - 48)) ds 0.

(** [NUMBER_RE]: an optional minus, [0] or a nonzero digit and digits,
    then an optional fraction and an optional exponent, each taken only
    when it has a digit.  Each part is returned with the text after it. *)
Definition take_sign (s : str) : str * str :=
  match s with
  | c :: r => if (c =? 45)%N then ([c], r) else ([], s)
  | [] => ([], s)
  end.

Definition take_int (s : str) : option (str * str) :=
  match s with
  | c :: r =>
      if is_digit09 c then
        if (c =? 48)%N then Some ([c], r)
        else let (ds, rest) := span_digits r in Some (c :: ds, rest)
      else None
  | [] => None
  end.

Definition take_frac (s : str) : str * str :=
  match s with
  | dot :: r =>
      if (dot =? 46)%N then
        match span_digits r with
        | ([], _) => ([], s)
        | (ds, rest) => (dot :: ds, rest)
        end
      else ([], s)
  | [] => ([], s)
  end.

Definition take_exp (s : str) : str * str :=
  match s with
  | e :: r =>
      if (e =? 101)%N || (e =? 69)%N then
        let (sg, r') :=
          match r with
          | g :: r1 => if (g =? 45)%N || (g =? 43)%N then ([g], r1) else ([], r)
          | [] => ([], r)
          end in
        match span_digits r' with
        | ([], _) => ([], s)
        | (ds, rest) => (e :: sg ++ ds, rest)
        end
      else ([], s)
  | [] => ([], s)
  end.

(** A number without fraction and exponent is an [int], with its
    value; any other is a [float], kept as the text matched. *)
Definition match_number (s : str) : option (json * str) :=
  let (sign, s1) := take_sign s in
  match take_int s1 with
  | None => None
  | Some (int_part, s2) =>
      let (frac, s3) := take_frac s2 in
      let (expo, s4) := take_exp s3 in
      match frac, expo with
      | [], [] =>
          Some (JInt (match sign with
                      | [] => digits_value int_part
                      | _ => - digits_value int_part
                      end), s4)
      | _, _ => Some (JFloat (sign ++ int_part ++ frac ++ expo), s4)
      end
  end.

(** The atoms [scan_once] tries after string, object and array. *)
Definition scan_atom (s : str) : option (json * str) :=
  match strip_prefix (lit "null") s with
  | Some r => Some (JNull, r)
  | None =>
  match strip_prefix (lit "true") s with
  | Some r => Some (JBool true, r)
  | None =>
  match strip_prefix (lit "false") s with
  | Some r => Some (JBool false, r)
  | None =>
  match match_number s with
  | Some res => Some res
  | None =>
  match strip_prefix (lit "NaN") s with
  | Some r => Some (JFloat (lit "NaN"), r)
  | None =>
  match strip_prefix (lit "Infinity") s with
  | Some r => Some (JFloat (lit "Infinity"), r)
  | None =>
  match strip_prefix (lit "-Infinity") s with
  | Some r => Some (JFloat (lit "-Infinity"), r)
  | None => None
  end end end end end end end.

(** [d[k] = v] on a dict in insertion order. *)
Fixpoint dict_set (k : str) (v : json) (d : list (str * json)) : list (str * json) :=
  match d with
  | [] => [(k, v)]
  | (k', v') :: d' =>
      if str_eqb k' k then (k', v) :: d' else (k', v') :: dict_set k v d'
  end.

(** [dict(pairs)] *)
Definition dict_of_pairs (pairs : list (str * json)) : list (str * json) :=
  fold_left (fun d kv => dict_set (fst kv) (snd kv) d) pairs [].

Fixpoint scan_once (fuel : nat) (s : str) {struct fuel} : option (json * str) :=
  match fuel with
  | O => None
  | S fuel' =>
      match s with
      | [] => None
      | c :: r =>
          if (c =? 34)%N then
            match scanstring r with
            | Some (v, rest) => Some (JStr v, rest)
            | None => None
            end
          else if (c =? 123)%N then
            match skip_ws r with
            | c2 :: r2 =>
                if (c2 =? 125)%N then Some (JObj [], r2)
                else JSONObject fuel' (c2 :: r2) []
            | [] => None
            end
          else if (c =? 91)%N then
            match skip_ws r with
            | c2 :: r2 =>
                if (c2 =? 93)%N then Some (JArr [], r2)
                else JSONArray fuel' (c2 :: r2) []
            | [] => None
            end
          else scan_atom s
      end
  end

(** The members of an object from a key on; [pairs] holds those read so
    far, latest first. *)
with JSONObject (fuel : nat) (s : str) (pairs : list (str * json)) {struct fuel}
  : option (json * str) :=
  match fuel with
  | O => None
  | S fuel' =>
      match s with
      | q :: r =>
          if (q =? 34)%N then
            match scanstring r with
            | Some (key, r1) =>
                match skip_ws r1 with
                | colon :: r2 =>
                    if (colon =? 58)%N then
                      match scan_once fuel' (skip_ws r2) with
                      | Some (value, r3) =>
                          match skip_ws r3 with
                          | c :: r4 =>
                              if (c =? 125)%N then
                                Some (JObj (dict_of_pairs (rev ((key, value) :: pairs))), r4)
                              else if (c =? 44)%N then
                                JSONObject fuel' (skip_ws r4) ((key, value) :: pairs)
                              else None
                          | [] => None
                          end
                      | None => None
                      end
                    else None
                | [] => None
                end
            | None => None
            end
          else None
      | [] => None
      end
  end

(** The items of an array from an item on; [values] holds those read so
    far, latest first. *)
with JSONArray (fuel : nat) (s : str) (values : list json) {struct fuel}
  : option (json * str) :=
  match fuel with
  | O => None
  | S fuel' =>
      match scan_once fuel' s with
      | Some (value, r1) =>
          match skip_ws r1 with
          | c :: r2 =>
              if (c =? 93)%N then Some (JArr (rev (value :: values)), r2)
              else if (c =? 44)%N then JSONArray fuel' (skip_ws r2) (value :: values)
              else None
          | [] => None
          end
      | None => None
      end
  end.

(** [json.loads]: no byte order mark, one value, and nothing but white
    space around it. *)
Definition json_loads (s : str) : option json :=
  match s with
  | 65279%N :: _ => None
  | _ =>
      match scan_once (2 * List.length s + 1) (skip_ws s) with
      | Some (v, rest) =>
          match skip_ws rest with
          | [] => Some v
          | _ :: _ => None
          end
      | None => None
      end
  end.

(** ** load_history and save_history (lines 24-33) *)

Definition history_path : str := lit "password_history.json".

(** [open(path, "r")] and reading the text. *)
Definition open_read (path : str) (fs : filesystem) : outcome str :=
  match fs path with
  | Absent => Raised FileNotFoundError
  | Denied => Raised PermissionError
  | Present content => Returned content
  end.

(** [open(path, "w")]: the file is created when missing. *)
Definition open_write (path : str) (fs : filesystem) : outcome unit :=
  match fs path with
  | Denied => Raised PermissionError
  | _ => Returned tt
  end.

(** [json.load(f)] on the text of the file. *)
Definition json_load (text : str) : outcome json :=
  match json_loads text with
  | Some v => Returned v
  | None => Raised JSONDecodeError
  end.

(** Lines 24-29: the body of the [try], then the [except] clause, which
    catches [FileNotFoundError] and nothing else. *)
Definition load_history (fs : filesystem) : outcome json :=
  let body :=
    match open_read history_path fs with
    | Returned f => json_load f
    | Raised e => Raised e
    end in
  match body with
  | Raised FileNotFoundError => Returned (JArr [])
  | r => r
  end.

(** Lines 31-33: the whole history is written over the file. *)
Definition save_history (self : App) : outcome unit * App :=
  match open_write history_path (disk self) with
  | Raised e => (Raised e, self)
  | Returned _ =>
      (Returned tt,
       set_disk (fs_write history_path (json_dump (history self)) (disk self)) self)
  end.

(** ** update_history_display (lines 159-162) *)

(** [d[key]] on a dict *)
Fixpoint dict_get (key : str) (d : list (str * json)) : option json :=
  match d with
  | [] => None
  | (k, v) :: d' => if str_eqb k key then Some v else dict_get key d'
  end.

(** [entry[key]] on any value: only a dict takes a string subscript. *)
Definition subscript (entry : json) (key : str) : outcome json :=
  match entry with
  | JObj d =>
      match dict_get key d with
      | Some v => Returned v
      | None => Raised KeyError
      end
  | _ => Raised TypeError
  end.

(** [x[-10:]] *)
Definition last10 {A} (x : list A) : list A :=
  skipn (List.length x - 10) x.

(** [self.history[-10:]], as the sequence the loop runs over: a list
    gives its items, a string its characters, anything else raises. *)
Definition slice_last10 (h : json) : outcome (list json) :=
  match h with
  | JArr l => Returned (last10 l)
  | JStr s => Returned (List.map (fun c => JStr [c]) (last10 s))
  | _ => Raised TypeError
  end.

(** A value inside an f-string. *)
Definition format_value (v : json) : str :=
  match v with
  | JStr s => s
  | _ => py_str rt v
  end.

(** One row of the list box (line 162); the subscripts are evaluated
    left to right. *)
Definition format_entry (entry : json) : outcome str :=
  match subscript entry (lit "timestamp") with
  | Raised e => Raised e
  | Returned t =>
      match subscript entry (lit "password") with
      | Raised e => Raised e
      | Returned p =>
          match subscript entry (lit "strength") with
          | Raised e => Raised e
          | Returned g =>
              Returned (format_value t ++ lit " | " ++ format_value p
                        ++ lit " | " ++ format_value g)
          end
      end
  end.

(** The loop of lines 161-162: rows are inserted at the end of the list
    box until an entry raises. *)
Fixpoint insert_rows (entries : list json) (self : App) : outcome unit * App :=
  match entries with
  | [] => (Returned tt, self)
  | entry :: rest =>
      match format_entry entry with
      | Raised e => (Raised e, self)
      | Returned row =>
          insert_rows rest (set_history_list (history_list self ++ [row]) self)
      end
  end.

Definition update_history_display (self : App) : outcome unit * App :=
  let self := set_history_list [] self in
  match slice_last10 (history self) with
  | Raised e => (Raised e, self)
  | Returned recent => insert_rows (rev recent) self
  end.

(** ** generate_password (lines 92-121) *)

(** [random.choice(seq)] when the random source yields [r]. *)
Definition choice (r : nat) (seq : str) : outcome char :=
  match seq with
  | [] => Raised IndexError
  | _ => Returned (nth (r mod List.length seq) seq 0%N)
  end.

(** ["".join(random.choice(chars) for _ in range(length))]: [count]
    draws, the first of which is draw number [i] of the random source. *)
Fixpoint join_choices (rnd : nat -> nat) (chars : str) (i count : nat)
  : outcome str :=
  match count with
  | O => Returned []
  | S k =>
      match choice (rnd i) chars with
      | Raised e => Raised e
      | Returned c =>
          match join_choices rnd chars (S i) k with
          | Raised e => Raised e
          | Returned s => Returned (c :: s)
          end
      end
  end.

(** Lines 94-102. *)
Definition build_chars (self : App) : str :=
  let chars := [] in
  let chars := if upper_var self then chars ++ ascii_uppercase else chars in
  let chars := if lower_var self then chars ++ ascii_lowercase else chars in
  let chars := if digits_var self then chars ++ digits else chars in
  let chars := if symbols_var self then chars ++ symbols else chars in
  chars.

Definition warning_title : str := [1054; 1096; 1080; 1073; 1082; 1072]%N.
Definition warning_message : str :=
  [1042; 1099; 1073; 1077; 1088; 1080; 1090; 1077; 32; 1093; 1086; 1090;
   1103; 32; 1073; 1099; 32; 1086; 1076; 1080; 1085; 32; 1090; 1080; 1087;
   32; 1089; 1080; 1084; 1074; 1086; 1083; 1086; 1074; 33]%N.
Definition strength_prefix : str :=
  [1057; 1083; 1086; 1078; 1085; 1086; 1089; 1090; 1100; 58; 32]%N.

(** The dict of lines 115-119. *)
Definition history_entry (password timestamp strength : str) : json :=
  JObj [(lit "password", JStr password);
        (lit "timestamp", JStr timestamp);
        (lit "strength", JStr strength)].

(** [self.history.append(x)]: only a list has the method. *)
Definition append (h : json) (x : json) : outcome json :=
  match h with
  | JArr l => Returned (JArr (l ++ [x]))
  | _ => Raised AttributeError
  end.

(** [rnd] gives the values of the random source during the call and
    [now] is [datetime.now().strftime("%Y-%m-%d %H:%M:%S")]. *)
Definition generate_password (rnd : nat -> nat) (now : str) (self : App)
  : outcome unit * App :=
  let length := length_var self in
  let chars := build_chars self in
  match chars with
  | [] => (Returned tt, show (showwarning warning_title warning_message) self)
  | _ =>
      match join_choices rnd chars 0 (Z.to_nat length) with
      | Raised e => (Raised e, self)
      | Returned password =>
          let self := set_password_entry password self in
          let (strength, self) := check_strength password self in
          let self := set_strength_label_text (strength_prefix ++ strength) self in
          match append (history self) (history_entry password now strength) with
          | Raised e => (Raised e, self)
          | Returned h =>
              let self := set_history h self in
              match save_history self with
              | (Raised e, self) => (Raised e, self)
              | (Returned _, self) => update_history_display self
              end
          end
      end
  end.

(** The state after the password is shown and scored (lines 109-113). *)
Definition shown (password : str) (self : App) : App :=
  set_strength_label_text
    (strength_prefix ++ fst (check_strength password self))
    (snd (check_strength password (set_password_entry password self))).

(** ** __init__ (lines 13-22) with the defaults of create_widgets *)

(** The application the constructor returns, unless it raises. *)
Definition init (fs : filesystem) : outcome App :=
  match load_history fs with
  | Raised e => Raised e
  | Returned h =>
      let self :=
        {| length_var := 12; upper_var := true; lower_var := true;
           digits_var := true; symbols_var := true;
           password_entry := [];
           strength_label_text := strength_prefix ++ [10067%N];
           strength_label_foreground := [];
           history := h; history_list := [];
           disk := fs; dialogs := [] |} in
      match update_history_display self with
      | (Returned _, self) => Returned self
      | (Raised e, _) => Raised e
      end
  end.

(** ** export_history (lines 152-157)

    [pd.DataFrame(self.history).to_csv(filename, index=False)] is
    modelled for a history that is a list of dicts of strings, none of
    them empty; frames of another shape are left out ([None]).  Lines
    end with a line feed, as they do where [os.linesep] is one. *)

Fixpoint all_strings (d : list (str * json)) : option (list (str * str)) :=
  match d with
  | [] => Some []
  | (k, JStr v) :: d' =>
      match all_strings d' with
      | Some r => Some ((k, v) :: r)
      | None => None
      end
  | _ => None
  end.

Fixpoint string_rows (items : list json) : option (list (list (str * str))) :=
  match items with
  | [] => Some []
  | JObj (m :: d) :: rest =>
      match all_strings (m :: d), string_rows rest with
      | Some r, Some rs => Some (r :: rs)
      | _, _ => None
      end
  | _ => None
  end.

Definition mem_str (k : str) (l : list str) : bool := existsb (str_eqb k) l.

(** The columns of the frame: the keys in the order they first occur. *)
Definition frame_columns (rows : list (list (str * str))) : list str :=
  fold_left
    (fun cols row =>
       fold_left (fun cols kv => if mem_str (fst kv) cols then cols
                                 else cols ++ [fst kv]) row cols)
    rows [].

Fixpoint cell (col : str) (row : list (str * str)) : str :=
  match row with
  | [] => []                (* a missing value is written as nothing *)
  | (k, v) :: row' => if str_eqb k col then v else cell col row'
  end.

(** The [csv] writer with minimal quoting and lines ending with a line
    feed: a field holding the delimiter, the quote or a line break is
    enclosed in quotes, its quotes doubled. *)
Definition needs_quote (c : char) : bool :=
  (c =? 44)%N || (c =? 34)%N || (c =? 10)%N
  || ((c =? 13)%N && csv_quotes_cr rt).

Definition csv_field (f : str) : str :=
  if existsb needs_quote f then
    [34%N] ++ flat_map (fun c => if (c =? 34)%N then [34; 34]%N else [c]) f ++ [34%N]
  else f.

(** [writerow]: a row of one empty field is written as two quotes. *)
Definition csv_row (fields : list str) : str :=
  match fields with
  | [[]] => [34; 34; 10]%N
  | _ => join (lit ",") (List.map csv_field fields) ++ [10%N]
  end.

(** The header row, then the rows of the frame; a frame without
    columns has an empty header row. *)
Definition to_csv (rows : list (list (str * str))) : str :=
  let cols := frame_columns rows in
  csv_row cols
  ++ flat_map (fun row => csv_row (List.map (fun c => cell c row) cols)) rows.

Definition info_title : str := [1059; 1089; 1087; 1077; 1093]%N.
Definition saved_message : str :=
  [1048; 1089; 1090; 1086; 1088; 1080; 1103; 32; 1089; 1086; 1093; 1088;
   1072; 1085; 1077; 1085; 1072; 32; 1074; 32]%N.

(** [filename] is the answer of the file dialog, empty when cancelled. *)
Definition export_history (filename : str) (self : App)
  : option (outcome unit * App) :=
  match filename with
  | [] => Some (Returned tt, self)
  | _ =>
      match history self with
      | JArr items =>
          match string_rows items with
          | Some rows =>
              match open_write filename (disk self) with
              | Raised e => Some (Raised e, self)
              | Returned _ =>
                  let self := set_disk (fs_write filename (to_csv rows) (disk self)) self in
                  Some (Returned tt,
                        show (showinfo info_title (saved_message ++ filename)) self)
              end
          | None => None
          end
      | _ => None
      end
  end.

End Program.

(** ** The vocabulary of the specification *)

(** Some character class is selected. *)
Definition any_class (self : App) : bool :=
  upper_var self || lower_var self || digits_var self || symbols_var self.

(** The classes with their flags, in the order of lines 95-102. *)
Definition classes (self : App) : list (bool * str) :=
  [(upper_var self, ascii_uppercase); (lower_var self, ascii_lowercase);
   (digits_var self, digits); (symbols_var self, symbols)].

(** A character of the union of the selected classes. *)
Definition drawn_from_selected (self : App) (c : char) : Prop :=
  (upper_var self = true /\ In c ascii_uppercase)
  \/ (lower_var self = true /\ In c ascii_lowercase)
  \/ (digits_var self = true /\ In c digits)
  \/ (symbols_var self = true /\ In c symbols).

(** InvalidOptions: the call shows the warning and does nothing else. *)
Definition invalid_options (res : outcome unit * App) (self : App) : Prop :=
  res = (Returned tt, show (showwarning warning_title warning_message) self).

(** The number of selected classes. *)
Definition selected_count (self : App) : nat :=
  List.length (filter fst (classes self)).

(** ** Sample states *)

Definition empty_disk : filesystem := fun _ => Absent.

(** The application as [__init__] leaves it when there is no history
    file, with the given length and flags. *)
Definition fresh (length : Z) (upper lower digit symbol : bool) : App :=
  {| length_var := length; upper_var := upper; lower_var := lower;
     digits_var := digit; symbols_var := symbol;
     password_entry := [];
     strength_label_text := strength_prefix ++ [10067%N];
     strength_label_foreground := [];
     history := JArr []; history_list := [];
     disk := empty_disk; dialogs := [] |}.

Definition sample_now : str := lit "2024-05-17 09:30:00".

(** ** Well-formed strings *)

(** A code point of Unicode. *)
Definition valid_char (c : char) : bool := (c <? 1114112)%N.

(** No high surrogate is followed at once by a low surrogate. *)
Fixpoint no_surrogate_pair (s : str) : bool :=
  match s with
  | [] => true
  | c :: r =>
      match r with
      | d :: _ => negb (is_high_surrogate c && is_low_surrogate d)
      | [] => true
      end && no_surrogate_pair r
  end.

Definition well_formed (s : str) : bool :=
  forallb valid_char s && no_surrogate_pair s.

(** ** Checking a property of all numbers of [k] bits *)






(** The decoder is about to read an escaped low surrogate. *)
Definition low_escape_ahead (r : str) : bool :=
  match r with
  | bs :: r1 =>
      (bs =? 92)%N &&
      match r1 with
      | u :: r2 =>
          (u =? 117)%N &&
          match r2 with
          | a :: b :: c :: d :: _ =>
              match decode_uXXXX a b c d with
              | Some u2 => is_low_surrogate u2
              | None => true
              end
          | _ => false
          end
      | [] => false
      end
  | [] => false
  end.


(** ** History entries *)

Record HistoryEntry : Type := {
  entry_password : str;
  entry_timestamp : str;
  entry_strength : str
}.

(** The dict that stands for an entry, and the list for a store. *)
Definition entry_json (e : HistoryEntry) : json :=
  history_entry (entry_password e) (entry_timestamp e) (entry_strength e).

Definition store (entries : list HistoryEntry) : json :=
  JArr (List.map entry_json entries).

Definition well_formed_entry (e : HistoryEntry) : bool :=
  well_formed (entry_password e) && well_formed (entry_timestamp e)
  && well_formed (entry_strength e).

(** ** The exported table *)


Definition csv_line (rt : Runtime) (e : HistoryEntry) : str :=
  csv_field rt (entry_password e) ++ [44%N] ++ csv_field rt (entry_timestamp e)
  ++ [44%N] ++ csv_field rt (entry_strength e) ++ [10%N].








(** ** Reading a table back

    The reading of delimited text by the rules the writer follows:
    records end at a line feed, fields are separated by commas, and a
    field that opens with a quote runs to its closing quote, two quotes
    inside it standing for one. *)
Inductive csv_state : Type :=
| StartRecord
| StartField
| InField
| InQuoted
| QuoteInQuoted.

(** [field] and [row] hold the field and the record being read, latest
    first. *)
Fixpoint csv_read (st : csv_state) (field : str) (row : list str)
         (text : str) : list (list str) :=
  match text with
  | [] =>
      match st with
      | StartRecord => []
      | _ => [rev (rev field :: row)]
      end
  | c :: r =>
      match st with
      | StartRecord =>
          if (c =? 10)%N then [] :: csv_read StartRecord [] [] r
          else if (c =? 34)%N then csv_read InQuoted [] row r
          else if (c =? 44)%N then csv_read StartField [] ([] :: row) r
          else csv_read InField [c] row r
      | StartField =>
          if (c =? 10)%N then rev ([] :: row) :: csv_read StartRecord [] [] r
          else if (c =? 34)%N then csv_read InQuoted [] row r
          else if (c =? 44)%N then csv_read StartField [] ([] :: row) r
          else csv_read InField [c] row r
      | InField =>
          if (c =? 10)%N then
            rev (rev field :: row) :: csv_read StartRecord [] [] r
          else if (c =? 44)%N then
            csv_read StartField [] (rev field :: row) r
          else csv_read InField (c :: field) row r
      | InQuoted =>
          if (c =? 34)%N then csv_read QuoteInQuoted field row r
          else csv_read InQuoted (c :: field) row r
      | QuoteInQuoted =>
          if (c =? 34)%N then csv_read InQuoted (c :: field) row r
          else if (c =? 10)%N then
            rev (rev field :: row) :: csv_read StartRecord [] [] r
          else if (c =? 44)%N then
            csv_read StartField [] (rev field :: row) r
          else csv_read InField (c :: field) row r
      end
  end.

Definition read_csv (text : str) : list (list str) :=
  csv_read StartRecord [] [] text.


Definition entry_fields (e : HistoryEntry) : list str :=
  [entry_password e; entry_timestamp e; entry_strength e].




(** ** Texts read from a file *)

Definition is_surrogate (c : char) : bool :=
  (55296 <=? c)%N && (c <=? 57343)%N.

(** A character a decoded text file can hold: a code point that is not
    a surrogate. *)
Definition scalar (c : char) : bool := valid_char c && negb (is_surrogate c).

Definition scalar_text (s : str) : bool := forallb scalar s.

(** Every string of a JSON value, keys included, is well formed. *)
Fixpoint json_well_formed (v : json) : bool :=
  match v with
  | JStr s => well_formed s
  | JArr items => forallb json_well_formed items
  | JObj members =>
      forallb (fun kv => well_formed (fst kv) && json_well_formed (snd kv))
              members
  | _ => true
  end.

(** The first character of a string is a low surrogate. *)
Definition head_low (v : str) : bool :=
  match v with
  | d :: _ => is_low_surrogate d
  | [] => false
  end.

Definition member_well_formed (kv : str * json) : bool :=
  well_formed (fst kv) && json_well_formed (snd kv).

(** ** The runs of the application *)

(** [datetime.now()] and its [strftime("%Y-%m-%d %H:%M:%S")], for a
    year of four digits. *)
Record datetime : Type := {
  dt_year : N; dt_month : N; dt_day : N;
  dt_hour : N; dt_minute : N; dt_second : N
}.

Definition digit_char (n : N) : char := (48 + n mod 10)%N.

Definition pad2 (n : N) : str := [digit_char (n / 10); digit_char n].

Definition pad4 (n : N) : str :=
  [digit_char (n / 1000); digit_char (n / 100); digit_char (n / 10);
   digit_char n].

Definition strftime (t : datetime) : str :=
  pad4 (dt_year t) ++ lit "-" ++ pad2 (dt_month t) ++ lit "-"
  ++ pad2 (dt_day t) ++ lit " " ++ pad2 (dt_hour t) ++ lit ":"
  ++ pad2 (dt_minute t) ++ lit ":" ++ pad2 (dt_second t).



Definition sample_time : datetime :=
  {| dt_year := 2024; dt_month := 5; dt_day := 17;
     dt_hour := 9; dt_minute := 30; dt_second := 0 |}.

(** ** Auxiliary definitions of the proofs *)





(** ** Sample entries *)

Definition sample_entry : HistoryEntry :=
  {| entry_password := lit "Ab3!defghijk";
     entry_timestamp := sample_now;
     entry_strength := label_strong |}.

(** An application whose history holds the entries given. *)
Definition holding (entries : list HistoryEntry) : App :=
  set_history (store entries) (fresh 12 true true true true).


(** A quoted word of a text, and a line of it. *)
Definition quoted (s : string) : str := [34%N] ++ lit s ++ [34%N].
Definition line (s : str) : str := s ++ [10%N].

(** The file that [json.dump] writes for the store of [sample_entry]. *)
Definition sample_file : str :=
  line (lit "[")
  ++ line (lit "  {")
  ++ line (lit "    " ++ quoted "password" ++ lit ": " ++ quoted "Ab3!defghijk"
           ++ lit ",")
  ++ line (lit "    " ++ quoted "timestamp" ++ lit ": "
           ++ quoted "2024-05-17 09:30:00" ++ lit ",")
  ++ line (lit "    " ++ quoted "strength" ++ lit ": "
           ++ quoted "\ud83d\udfe2 \u0421\u0438\u043b\u044c\u043d\u044b\u0439")
  ++ line (lit "  }")
  ++ lit "]".



(** An entry whose password holds a comma and a quote. *)
Definition awkward_entry : HistoryEntry :=
  {| entry_password := lit "a,b" ++ [34%N] ++ lit "c";
     entry_timestamp := sample_now;
     entry_strength := lit "x" |}.

(** The specification's reading of a point of the score: the bit is set
    exactly when the condition holds. *)
Definition point (b : bool) (P : Prop) : Prop := b = true <-> P.

(** A password holds a character of a class. *)
Definition holds (class : char -> bool) (password : str) : Prop :=
  exists c, In c password /\ class c = true.

Definition in_symbols (c : char) : bool := char_in c symbols.

(** * Properties *)

(** ** The model on sample inputs *)

(** Without a history file the application starts with an empty
    history and the defaults of the widgets. *)
Example init_without_file :
  init ascii_runtime empty_disk = Returned (fresh 12 true true true true).
Proof. reflexivity. Qed.

(** The time stamp of a sample time. *)
Example strftime_sample : strftime sample_time = sample_now.
Proof. reflexivity. Qed.

(** The vectors of the specification for the strength. *)
Example strength_vectors :
  strength_score ascii_runtime (lit "Ab3!defghijk") = 5
  /\ fst (check_strength ascii_runtime (lit "Ab3!defghijk")
            (fresh 12 true true true true)) = label_text Strong
  /\ strength_score ascii_runtime (lit "abcdefgh") = 1
  /\ fst (check_strength ascii_runtime (lit "abcdefgh")
            (fresh 12 true true true true)) = label_text Weak.
Proof. repeat split. Qed.

(** The text of a dumped store, and its reading. *)
Example json_dump_sample :
  json_dump ascii_runtime (store [sample_entry]) = sample_file
  /\ json_loads sample_file = Some (store [sample_entry]).
Proof. split; reflexivity. Qed.

(** The decoder on some texts: what it refuses and what it reads. *)
Example json_loads_vectors :
  json_loads (lit "[1,]") = None
  /\ json_loads (lit "01") = None
  /\ json_loads (lit "1.") = None
  /\ json_loads (lit "[] x") = None
  /\ json_loads ([34; 9; 34]%N) = None
  /\ json_loads (lit "[1 ,2 ]") = Some (JArr [JInt 1; JInt 2])
  /\ json_loads (lit "-0") = Some (JInt 0)
  /\ json_loads (lit "[1.5e3, NaN]")
     = Some (JArr [JFloat (lit "1.5e3"); JFloat (lit "NaN")])
  /\ json_loads (lit " {" ++ quoted "a" ++ lit " : 1 , " ++ quoted "a"
                 ++ lit ":2} ")
     = Some (JObj [(lit "a", JInt 2)]).
Proof. repeat split. Qed.

(** A surrogate pair written as two escapes is read as one character:
    the strings that round trip are the well-formed ones. *)
Example surrogate_escapes_are_joined :
  json_loads (json_dump ascii_runtime (JStr [55357; 56628]%N))
  = Some (JStr [128308%N]).
Proof. reflexivity. Qed.

(** A field with a comma and a quote is written in quotes, its quote
    doubled, and read back as it was. *)
Example csv_line_awkward :
  csv_line ascii_runtime awkward_entry
  = line ([34%N] ++ lit "a,b" ++ [34; 34]%N ++ lit "c" ++ [34%N]
          ++ lit ",2024-05-17 09:30:00,x")
  /\ read_csv (csv_line ascii_runtime awkward_entry) = [entry_fields awkward_entry].
Proof. split; reflexivity. Qed.

Section Strength.

Variable rt : Runtime.

Lemma char_in_In (c : char) (s : str) : char_in c s = true <-> In c s.
Proof.
  unfold char_in. rewrite existsb_exists. split.
  - intros [x [Hx Heq]]. apply N.eqb_eq in Heq. now subst.
  - intros H. exists c. split; [assumption | apply N.eqb_refl].
Qed.

Lemma existsb_holds (class : char -> bool) (password : str) :
  point (existsb class password) (holds class password).
Proof. unfold point, holds. apply existsb_exists. Qed.

Lemma existsb_none (class : char -> bool) (password : str) :
  (forall c, In c password -> class c = false) ->
  existsb class password = false.
Proof.
  intros H. destruct (existsb class password) eqn:E; [|reflexivity].
  apply existsb_exists in E. destruct E as [c [Hin Hc]].
  rewrite (H c Hin) in Hc. discriminate.
Qed.

Lemma strength_score_sum (password : str) :
  strength_score rt password =
    b2z (12 <=? len password)
    + b2z (existsb (islower rt) password)
    + b2z (existsb (isupper rt) password)
    + b2z (existsb (isdigit rt) password)
    + b2z (existsb in_symbols password).
Proof.
  unfold strength_score, in_symbols.
  destruct (12 <=? len password), (existsb (islower rt) password),
    (existsb (isupper rt) password), (existsb (isdigit rt) password),
    (existsb (fun c => char_in c symbols) password); reflexivity.
Qed.

Lemma strength_score_range (password : str) :
  0 <= strength_score rt password <= 5.
Proof.
  rewrite strength_score_sum.
  destruct (12 <=? len password), (existsb (islower rt) password),
    (existsb (isupper rt) password), (existsb (isdigit rt) password),
    (existsb in_symbols password); simpl; lia.
Qed.

Lemma check_strength_label (password : str) (self : App) :
  fst (check_strength rt password self)
  = label_text (grade_of_score (strength_score rt password)).
Proof.
  unfold check_strength.
  pose proof (strength_score_range password) as R.
  assert (C : strength_score rt password = 0 \/ strength_score rt password = 1
              \/ strength_score rt password = 2 \/ strength_score rt password = 3
              \/ strength_score rt password = 4 \/ strength_score rt password = 5)
    by lia.
  destruct C as [E|[E|[E|[E|[E|E]]]]]; rewrite E; reflexivity.
Qed.

Lemma check_strength_state (password : str) (self : App) :
  exists colour,
    snd (check_strength rt password self)
    = set_strength_label_foreground colour self.
Proof.
  unfold check_strength.
  destruct (strength_score rt password <=? 2); [eexists; reflexivity|].
  destruct (strength_score rt password <=? 4); eexists; reflexivity.
Qed.

(** C2: [check_strength] is a function of the password alone, defined
    on every string.  Its score is the sum of five points, one each for
    a length of at least 12, for a lowercase character, for an uppercase
    character, for a digit and for a character of the symbol literal;
    the score lies between 0 and 5; scores 0 to 2 give the weak label,
    3 and 4 the medium one and 5 the strong one.  The empty string
    scores 0 and is weak, and Ab3!defghij scores 4 and is medium. *)
Theorem check_strength_is_five_point_score :
  forall (password : str) (self other : App),
    (exists long lower upper digit symbol : bool,
        point long (12 <= len password)
        /\ point lower (holds (islower rt) password)
        /\ point upper (holds (isupper rt) password)
        /\ point digit (holds (isdigit rt) password)
        /\ point symbol (exists c, In c password /\ In c symbols)
        /\ strength_score rt password
           = b2z long + b2z lower + b2z upper + b2z digit + b2z symbol)
    /\ 0 <= strength_score rt password <= 5
    /\ fst (check_strength rt password self)
       = label_text (grade_of_score (strength_score rt password))
    /\ fst (check_strength rt password self)
       = fst (check_strength rt password other)
    /\ List.map grade_of_score [0; 1; 2; 3; 4; 5]
       = [Weak; Weak; Weak; Medium; Medium; Strong]
    /\ strength_score rt [] = 0
    /\ fst (check_strength rt [] self) = label_text Weak
    /\ strength_score rt (lit "Ab3!defghij") = 4
    /\ fst (check_strength rt (lit "Ab3!defghij") self) = label_text Medium.
Proof.
  intros password self other. repeat split.
  - exists (12 <=? len password), (existsb (islower rt) password),
      (existsb (isupper rt) password), (existsb (isdigit rt) password),
      (existsb in_symbols password).
    repeat split; try apply existsb_holds; try apply strength_score_sum.
    + apply Z.leb_le.
    + apply Z.leb_le.
    + intros H. apply existsb_exists in H. destruct H as [c [Hin Hc]].
      exists c. split; [assumption | now apply char_in_In].
    + intros [c [Hin Hc]]. apply existsb_exists. exists c.
      split; [assumption | now apply char_in_In].
  - apply strength_score_range.
  - apply strength_score_range.
  - apply check_strength_label.
  - now rewrite !check_strength_label.
Qed.

(** C10: the symbol point is given for membership in the symbol literal
    and for nothing else.  A password with no character of the literal
    gets no symbol point, so its score is the sum of the other four
    points; if moreover none of its characters is lowercase, uppercase
    or a digit, it scores at most 1.  Thirty characters of spaces and
    tildes score exactly 1 and are weak. *)
Theorem symbol_point_needs_the_literal_set :
  forall (password : str) (self : App),
    (forall c, In c password -> ~ In c symbols) ->
    existsb in_symbols password = false
    /\ strength_score rt password
       = b2z (12 <=? len password)
         + b2z (existsb (islower rt) password)
         + b2z (existsb (isupper rt) password)
         + b2z (existsb (isdigit rt) password)
    /\ ((forall c, In c password ->
           islower rt c = false /\ isupper rt c = false /\ isdigit rt c = false) ->
        strength_score rt password <= 1)
    /\ strength_score rt (repeat 32%N 15 ++ repeat 126%N 15) = 1
    /\ fst (check_strength rt (repeat 32%N 15 ++ repeat 126%N 15) self)
       = label_text Weak.
Proof.
  intros password self Hout.
  assert (Hsym : existsb in_symbols password = false).
  { apply existsb_none. intros c Hin. unfold in_symbols.
    destruct (char_in c symbols) eqn:E; [|reflexivity].
    apply char_in_In in E. now apply Hout in E. }
  repeat split.
  - exact Hsym.
  - rewrite strength_score_sum, Hsym. simpl. lia.
  - intros Hplain. rewrite strength_score_sum, Hsym.
    rewrite !existsb_none by (intros c Hin; now apply Hplain in Hin).
    destruct (12 <=? len password); simpl; lia.
Qed.

End Strength.

Section Generation.

Variable rt : Runtime.

Lemma set_history_list_same (self : App) :
  set_history_list (history_list self) self = self.
Proof. destruct self; reflexivity. Qed.

Lemma insert_rows_state (entries : list json) :
  forall self, exists rows,
    snd (insert_rows rt entries self) = set_history_list rows self.
Proof.
  induction entries as [|entry rest IH]; intros self; simpl.
  - exists (history_list self). now rewrite set_history_list_same.
  - destruct (format_entry rt entry) as [row|e]; simpl.
    + destruct (IH (set_history_list (history_list self ++ [row]) self))
        as [rows Hrows].
      exists rows. rewrite Hrows. reflexivity.
    + exists (history_list self). now rewrite set_history_list_same.
Qed.

Lemma update_history_display_state (self : App) :
  exists rows,
    snd (update_history_display rt self) = set_history_list rows self.
Proof.
  unfold update_history_display.
  destruct (slice_last10 (history (set_history_list [] self))) as [recent|e].
  - destruct (insert_rows_state (rev recent) (set_history_list [] self))
      as [rows Hrows].
    exists rows. rewrite Hrows. reflexivity.
  - exists []. reflexivity.
Qed.

Lemma choice_in (r : nat) (chars : str) :
  chars <> [] -> exists c, choice r chars = Returned c /\ In c chars.
Proof.
  intros Hne. destruct chars as [|c0 chars']; [contradiction|].
  eexists. split; [reflexivity|].
  apply nth_In. apply Nat.mod_upper_bound. simpl. lia.
Qed.

Lemma join_choices_ok (rnd : nat -> nat) (chars : str) :
  chars <> [] ->
  forall count i, exists password,
    join_choices rnd chars i count = Returned password
    /\ List.length password = count
    /\ Forall (fun c => In c chars) password.
Proof.
  intros Hne. induction count as [|k IH]; intros i; simpl.
  - exists []. auto.
  - destruct (choice_in (rnd i) chars Hne) as [c [Hc Hin]].
    destruct (IH (S i)) as [s [Hs [Hlen Hall]]].
    rewrite Hc, Hs. exists (c :: s). simpl. auto.
Qed.

Lemma build_chars_concat (self : App) :
  build_chars self =
    (if upper_var self then ascii_uppercase else [])
    ++ (if lower_var self then ascii_lowercase else [])
    ++ (if digits_var self then digits else [])
    ++ (if symbols_var self then symbols else []).
Proof.
  unfold build_chars.
  destruct (upper_var self), (lower_var self), (digits_var self),
    (symbols_var self); reflexivity.
Qed.

Lemma build_chars_empty (self : App) :
  build_chars self = [] <-> any_class self = false.
Proof.
  rewrite build_chars_concat. unfold any_class.
  destruct (upper_var self), (lower_var self), (digits_var self),
    (symbols_var self); simpl; split; intros H; try reflexivity;
    discriminate H.
Qed.

Lemma In_build_chars (self : App) (c : char) :
  In c (build_chars self) <-> drawn_from_selected self c.
Proof.
  rewrite build_chars_concat. unfold drawn_from_selected.
  rewrite !in_app_iff.
  destruct (upper_var self), (lower_var self), (digits_var self),
    (symbols_var self); cbv iota; change (In c []) with False;
    generalize (In c ascii_uppercase), (In c ascii_lowercase),
      (In c digits), (In c symbols); intros U L D S;
    intuition discriminate.
Qed.

(** Where a call with a non-empty character set ends: at the append
    when the history is not a list, at the save when the file cannot be
    written, and else in [update_history_display]. *)
Lemma generate_password_cases (rnd : nat -> nat) (now : str) (self : App) :
  build_chars self <> [] ->
  exists password,
    join_choices rnd (build_chars self) 0 (Z.to_nat (length_var self))
      = Returned password
    /\ let entry :=
         history_entry password now (fst (check_strength rt password self)) in
       ((forall prior, history self <> JArr prior)
        /\ generate_password rt rnd now self
           = (Raised AttributeError, shown rt password self))
       \/ (exists prior,
              history self = JArr prior
              /\ let appended :=
                   set_history (JArr (prior ++ [entry])) (shown rt password self) in
                 (disk self history_path = Denied
                  /\ generate_password rt rnd now self
                     = (Raised PermissionError, appended))
                 \/ (disk self history_path <> Denied
                     /\ generate_password rt rnd now self
                        = update_history_display rt
                            (set_disk
                               (fs_write history_path
                                  (json_dump rt (JArr (prior ++ [entry])))
                                  (disk self))
                               appended))).
Proof.
  intros Hne.
  destruct (join_choices_ok rnd (build_chars self) Hne
              (Z.to_nat (length_var self)) 0%nat) as [password [Hp _]].
  exists password. split; [exact Hp|].
  unfold generate_password.
  destruct (build_chars self) as [|c0 chars'] eqn:Echars; [contradiction|].
  rewrite Hp.
  assert (Hlab : forall s, fst (check_strength rt password s)
                           = fst (check_strength rt password self))
    by (intros s; now rewrite !check_strength_label).
  destruct (check_strength_state rt password (set_password_entry password self))
    as [colour Hcol].
  unfold shown. rewrite Hcol.
  destruct (check_strength rt password (set_password_entry password self))
    as [strength s1] eqn:Ecs.
  simpl in Hcol. subst s1.
  assert (Hs : strength = fst (check_strength rt password self)).
  { rewrite <- (Hlab (set_password_entry password self)), Ecs. reflexivity. }
  subst strength. cbn [history set_strength_label_text
                       set_strength_label_foreground set_password_entry].
  destruct (history self) as [| | | | |prior|] eqn:Eh;
    try (left; split; [intros prior; discriminate | reflexivity]).
  right. exists prior. split; [reflexivity|].
  cbn [append]. unfold save_history, open_write.
  cbn [disk set_history set_strength_label_text
       set_strength_label_foreground set_password_entry history].
  destruct (disk self history_path) eqn:Ed.
  - right. split; [discriminate | reflexivity].
  - left. split; reflexivity.
  - right. split; [discriminate | reflexivity].
Qed.

Lemma shown_fields (password : str) (self : App) :
  password_entry (shown rt password self) = password
  /\ history (shown rt password self) = history self
  /\ disk (shown rt password self) = disk self
  /\ dialogs (shown rt password self) = dialogs self.
Proof.
  unfold shown.
  destruct (check_strength_state rt password (set_password_entry password self))
    as [colour Hcol].
  rewrite Hcol. repeat split.
Qed.

(** What every call with a non-empty character set leaves behind,
    however it ends. *)
Lemma generate_password_effect (rnd : nat -> nat) (now : str) (self : App) :
  build_chars self <> [] ->
  exists password,
    join_choices rnd (build_chars self) 0 (Z.to_nat (length_var self))
      = Returned password
    /\ password_entry (snd (generate_password rt rnd now self)) = password
    /\ dialogs (snd (generate_password rt rnd now self)) = dialogs self
    /\ (forall prior, history self = JArr prior ->
          history (snd (generate_password rt rnd now self))
          = JArr (prior ++ [history_entry password now
                              (fst (check_strength rt password self))])).
Proof.
  intros Hne.
  destruct (generate_password_cases rnd now self Hne) as [password [Hp Hc]].
  exists password. split; [exact Hp|].
  destruct (shown_fields password self) as [F1 [F2 [F3 F4]]].
  cbn zeta in Hc.
  destruct Hc as [[Hnl Hg] | [prior [Hh [[Hd Hg] | [Hd Hg]]]]]; rewrite Hg.
  - cbn [snd]. repeat split; try assumption.
    intros prior Hh. now apply Hnl in Hh.
  - cbn [snd]. repeat split; try assumption.
    intros prior' Hh'. rewrite Hh in Hh'. injection Hh' as <-. reflexivity.
  - match goal with |- context [update_history_display rt ?s] =>
      destruct (update_history_display_state s) as [rows Hrows];
      rewrite Hrows end.
    repeat split; try assumption.
    intros prior' Hh'. rewrite Hh in Hh'. injection Hh' as <-. reflexivity.
Qed.






(** A call that generates and returns. *)
Lemma generate_password_success (rnd : nat -> nat) (now : str) (self self' : App) :
  build_chars self <> [] ->
  generate_password rt rnd now self = (Returned tt, self') ->
  exists prior password,
    join_choices rnd (build_chars self) 0 (Z.to_nat (length_var self))
      = Returned password
    /\ history self = JArr prior
    /\ history self'
       = JArr (prior ++ [history_entry password now
                           (fst (check_strength rt password self))])
    /\ password_entry self' = password
    /\ disk self'
       = fs_write history_path (json_dump rt (history self')) (disk self).
Proof.
  intros Hne Hg.
  destruct (generate_password_cases rnd now self Hne) as [password [Hp Hc]].
  destruct (shown_fields password self) as [F1 [F2 [F3 F4]]].
  cbn zeta in Hc.
  destruct Hc as [[_ Hg'] | [prior [Hh [[_ Hg'] | [Hd Hg']]]]];
    rewrite Hg in Hg'; try discriminate Hg'.
  exists prior, password. split; [exact Hp|]. split; [exact Hh|].
  match type of Hg' with _ = update_history_display rt ?s =>
    destruct (update_history_display_state s) as [rows Hrows];
    rewrite <- Hg' in Hrows; cbn [snd] in Hrows end.
  subst self'.
  cbn [history password_entry disk set_history_list set_disk set_history].
  rewrite F1. repeat split.
Qed.

End Generation.

Section GenerationProperties.

Variable rt : Runtime.

(** C1: with some class selected and a length of at least 1, the
    password that [generate_password] produces has exactly [length]
    characters, and each of them belongs to the character set built by
    concatenating, in the order uppercase, lowercase, digits, symbols,
    the classes whose flag is set; the symbol class is the literal
    [symbols].  The call is not rejected. *)
Theorem generate_password_length_and_alphabet :
  forall (rnd : nat -> nat) (now : str) (self : App),
    any_class self = true ->
    1 <= length_var self ->
    let password := password_entry (snd (generate_password rt rnd now self)) in
    len password = length_var self
    /\ build_chars self =
         (if upper_var self then ascii_uppercase else [])
         ++ (if lower_var self then ascii_lowercase else [])
         ++ (if digits_var self then digits else [])
         ++ (if symbols_var self then symbols else [])
    /\ Forall (fun c => In c (build_chars self)) password
    /\ Forall (drawn_from_selected self) password
    /\ dialogs (snd (generate_password rt rnd now self)) = dialogs self.
Proof.
  intros rnd now self Hany Hlen password.
  assert (Hne : build_chars self <> []).
  { intros E. apply build_chars_empty in E. congruence. }
  destruct (join_choices_ok rnd (build_chars self) Hne
              (Z.to_nat (length_var self)) 0%nat) as [pw [Hpw [Hl Hall]]].
  destruct (generate_password_effect rt rnd now self Hne)
    as [pw' [Hpw' [He [Hd _]]]].
  rewrite Hpw in Hpw'. injection Hpw' as <-.
  subst password. rewrite He.
  split; [unfold len; lia|].
  split; [apply build_chars_concat|].
  split; [exact Hall|].
  split; [|exact Hd].
  eapply Forall_impl; [|exact Hall].
  intros c. apply In_build_chars.
Qed.


(** C4: with no class selected the call is rejected whatever the
    length: the warning is shown and nothing else happens; no password
    is shown, the history is as it was and no file is written. *)
Theorem no_class_selected_is_rejected :
  forall (rnd : nat -> nat) (now : str) (self : App),
    any_class self = false ->
    invalid_options (generate_password rt rnd now self) self
    /\ password_entry (snd (generate_password rt rnd now self))
       = password_entry self
    /\ history (snd (generate_password rt rnd now self)) = history self
    /\ disk (snd (generate_password rt rnd now self)) = disk self
    /\ history_list (snd (generate_password rt rnd now self))
       = history_list self.
Proof.
  intros rnd now self Hany. apply build_chars_empty in Hany.
  unfold invalid_options, generate_password. rewrite Hany.
  repeat split.
Qed.

Lemma export_history_keeps_history (filename : str) (self : App) :
  forall res, export_history rt filename self = Some res ->
              history (snd res) = history self.
Proof.
  intros res. unfold export_history.
  destruct filename; [intros [= <-]; reflexivity|].
  destruct (history self) eqn:Eh; try discriminate.
  destruct (string_rows items); try discriminate.
  destruct (open_write _ _); intros [= <-]; simpl; now rewrite Eh.
Qed.

(** C6: the history only grows at its end.  A call of
    [generate_password] that generates and returns had a list as
    history and leaves that list with one entry added after it: the
    entries that were there are the first entries of the result, in
    their order, and the new entry holds the password shown, the time
    of the call and the label of the password.  The file then holds the
    dump of the new list.  Neither the display nor the export changes
    the history. *)
Theorem history_is_append_only :
  forall (rnd : nat -> nat) (now : str) (self self' : App),
    build_chars self <> [] ->
    generate_password rt rnd now self = (Returned tt, self') ->
    (exists prior,
        history self = JArr prior
        /\ history self'
           = JArr (prior ++ [history_entry (password_entry self') now
                               (fst (check_strength rt (password_entry self') self))])
        /\ (forall items, history self' = JArr items ->
              firstn (List.length prior) items = prior
              /\ List.length items = S (List.length prior))
        /\ disk self' history_path = Present (json_dump rt (history self')))
    /\ history (snd (update_history_display rt self')) = history self'
    /\ (forall filename res, export_history rt filename self' = Some res ->
          history (snd res) = history self').
Proof.
  intros rnd now self self' Hne Hg.
  split; [|split].
  - destruct (generate_password_success rt rnd now self self' Hne Hg)
      as [prior [password [_ [Hh [Hh' [Hp Hd]]]]]].
    exists prior. split; [exact Hh|]. rewrite Hp.
    split; [exact Hh'|]. split.
    + rewrite Hh'. intros items [= <-]. split.
      * rewrite firstn_app, firstn_all, Nat.sub_diag. simpl.
        apply app_nil_r.
      * rewrite length_app. simpl. lia.
    + rewrite Hd. unfold fs_write.
      replace (str_eqb history_path history_path) with true by reflexivity.
      reflexivity.
  - destruct (update_history_display_state rt self') as [rows Hrows].
    rewrite Hrows. reflexivity.
  - intros filename res. apply export_history_keeps_history.
Qed.

Lemma constant_draws (c0 : char) (chars : str) :
  forall count i,
    join_choices (fun _ => 0%nat) (c0 :: chars) i count
    = Returned (repeat c0 count).
Proof.
  induction count as [|k IH]; intros i; [reflexivity|].
  cbn [join_choices]. rewrite IH.
  unfold choice. rewrite Nat.Div0.mod_0_l. reflexivity.
Qed.

(** With two classes selected, the draws that are all zero give a
    password made of the first character of the character set, which
    has nothing of another selected class. *)
Lemma zero_draws_miss_a_class (now : str) (self : App) :
  (2 <= selected_count self)%nat ->
  exists class,
    In (true, class) (classes self)
    /\ forall c,
         In c (password_entry
                 (snd (generate_password rt (fun _ => 0%nat) now self))) ->
         ~ In c class.
Proof.
  intros Htwo.
  assert (Hne : build_chars self <> []).
  { intros E. apply build_chars_empty in E. revert Htwo E.
    unfold selected_count, classes, any_class.
    destruct (upper_var self), (lower_var self), (digits_var self),
      (symbols_var self); simpl; intros; try discriminate; lia. }
  destruct (generate_password_effect rt (fun _ => 0%nat) now self Hne)
    as [pw [Hpw [He _]]].
  rewrite He. clear He.
  destruct (build_chars self) as [|c0 chars'] eqn:Echars; [contradiction|].
  rewrite constant_draws in Hpw. injection Hpw as <-.
  assert (Hmiss : exists class, In (true, class) (classes self)
                                /\ char_in c0 class = false).
  { revert Htwo Echars. rewrite build_chars_concat.
    unfold selected_count, classes.
    destruct (upper_var self), (lower_var self), (digits_var self),
      (symbols_var self); simpl; intros Htwo [= <- _]; try lia;
      first [ exists ascii_lowercase; split; [simpl; tauto | reflexivity]
            | exists digits; split; [simpl; tauto | reflexivity]
            | exists symbols; split; [simpl; tauto | reflexivity] ]. }
  destruct Hmiss as [class [Hin Hnot]].
  exists class. split; [exact Hin|].
  intros c Hc. apply repeat_spec in Hc. subst c.
  intros Hcl. apply char_in_In in Hcl. congruence.
Qed.

(** C9: generation does not force one character per class.  There are
    options with two classes selected and a length of at least 1, and
    draws of the random source, for which the password has the asked
    length and no character at all of one of the selected classes. *)
Theorem some_password_misses_a_selected_class :
  exists (self : App) (rnd : nat -> nat) (now : str),
    (2 <= selected_count self)%nat
    /\ 1 <= length_var self
    /\ len (password_entry (snd (generate_password rt rnd now self)))
       = length_var self
    /\ exists class,
         In (true, class) (classes self)
         /\ forall c,
              In c (password_entry (snd (generate_password rt rnd now self))) ->
              ~ In c class.
Proof.
  exists (fresh 12 true true true true), (fun _ => 0%nat), sample_now.
  assert (Htwo : (2 <= selected_count (fresh 12 true true true true))%nat)
    by (unfold selected_count; simpl; lia).
  split; [exact Htwo|]. split; [simpl; lia|]. split.
  - assert (Hne : build_chars (fresh 12 true true true true) <> [])
      by discriminate.
    destruct (generate_password_effect rt (fun _ => 0%nat) sample_now
                (fresh 12 true true true true) Hne) as [pw [Hpw [He _]]].
    rewrite He.
    destruct (join_choices_ok (fun _ => 0%nat)
                (build_chars (fresh 12 true true true true)) Hne
                (Z.to_nat (length_var (fresh 12 true true true true))) 0%nat)
      as [pw' [Hpw' [Hl _]]].
    rewrite Hpw in Hpw'. injection Hpw' as <-.
    unfold len. rewrite Hl. reflexivity.
  - apply zero_draws_miss_a_class. exact Htwo.
Qed.

End GenerationProperties.

Section Bits.








End Bits.

Section Strings.

Lemma scanstring_quote (r : str) : scanstring (34%N :: r) = Some ([], r).
Proof. reflexivity. Qed.







(** After the escape of a character that is not a low surrogate, and
    at the closing quote, the decoder does not see an escaped low
    surrogate. *)
Lemma no_low_escape_at_quote (rest : str) :
  low_escape_ahead (34%N :: rest) = false.
Proof. reflexivity. Qed.




End Strings.

Section Documents.

Variable rt : Runtime.



























End Documents.

Section Reading.

Lemma lor_lt_pow2 (a b k : N) :
  (a < 2 ^ k)%N -> (b < 2 ^ k)%N -> (N.lor a b < 2 ^ k)%N.
Proof.
  intros Ha Hb.
  rewrite <- (N.mod_small a (2 ^ k)), <- (N.mod_small b (2 ^ k)) by assumption.
  rewrite <- !N.land_ones, <- N.land_lor_distr_l, N.land_ones.
  apply N.mod_lt. apply N.pow_nonzero. discriminate.
Qed.

Lemma hex_value_lt (c : char) (x : N) : hex_value c = Some x -> (x < 16)%N.
Proof.
  unfold hex_value.
  destruct ((48 <=? c)%N && (c <=? 57)%N) eqn:E1.
  { apply andb_prop in E1. destruct E1 as [A B].
    apply N.leb_le in A, B. intros [= <-]. lia. }
  destruct ((97 <=? c)%N && (c <=? 102)%N) eqn:E2.
  { apply andb_prop in E2. destruct E2 as [A B].
    apply N.leb_le in A, B. intros [= <-]. lia. }
  destruct ((65 <=? c)%N && (c <=? 70)%N) eqn:E3; [|discriminate].
  apply andb_prop in E3. destruct E3 as [A B].
  apply N.leb_le in A, B. intros [= <-]. lia.
Qed.

Lemma decode_uXXXX_lt (a b c d : char) (u : N) :
  decode_uXXXX a b c d = Some u -> (u < 65536)%N.
Proof.
  unfold decode_uXXXX.
  destruct (hex_value a) as [x|] eqn:Ex; [|discriminate].
  destruct (hex_value b) as [y|] eqn:Ey; [|discriminate].
  destruct (hex_value c) as [z|] eqn:Ez; [|discriminate].
  destruct (hex_value d) as [w|] eqn:Ew; [|discriminate].
  apply hex_value_lt in Ex, Ey, Ez, Ew. intros [= <-].
  change 65536%N with (2 ^ 16)%N.
  repeat apply lor_lt_pow2; rewrite ?N.shiftl_mul_pow2;
    change (2 ^ 16)%N with 65536%N; change (2 ^ 12)%N with 4096%N;
    change (2 ^ 8)%N with 256%N; change (2 ^ 4)%N with 16%N; lia.
Qed.

Lemma join_surrogates_astral (hi lo : N) :
  is_high_surrogate hi = true -> is_low_surrogate lo = true ->
  (65536 <= join_surrogates hi lo < 1114112)%N.
Proof.
  unfold is_high_surrogate, is_low_surrogate, join_surrogates.
  intros Hh Hl. apply andb_prop in Hh, Hl.
  destruct Hh as [H1 H2], Hl as [L1 L2].
  apply N.leb_le in H1, H2, L1, L2.
  assert (N.lor (N.shiftl (hi - 55296) 10) (lo - 56320) < 2 ^ 20)%N.
  { apply lor_lt_pow2; rewrite ?N.shiftl_mul_pow2;
      change (2 ^ 20)%N with 1048576%N; change (2 ^ 10)%N with 1024%N; lia. }
  change (2 ^ 20)%N with 1048576%N in H. lia.
Qed.

Lemma well_formed_cons_intro (c : char) (v : str) :
  valid_char c = true -> well_formed v = true ->
  (is_high_surrogate c = true -> head_low v = false) ->
  well_formed (c :: v) = true.
Proof.
  unfold well_formed. intros Hc Hv Hp.
  apply andb_prop in Hv. destruct Hv as [Hv1 Hv2].
  cbn [forallb no_surrogate_pair]. rewrite Hc, Hv1, Hv2.
  destruct v as [|d v']; [reflexivity|].
  destruct (is_high_surrogate c); [|reflexivity].
  cbn [head_low] in Hp. now rewrite Hp.
Qed.

Lemma cons_to_some (c : char) (r : option (str * str)) (v rest : str) :
  cons_to c r = Some (v, rest) ->
  exists v', r = Some (v', rest) /\ v = c :: v'.
Proof.
  destruct r as [[v' rest']|]; [|discriminate].
  intros [= <- <-]. now exists v'.
Qed.

Lemma scalar_parts (c : char) :
  scalar c = true ->
  valid_char c = true /\ is_high_surrogate c = false
  /\ is_low_surrogate c = false.
Proof.
  unfold scalar, is_surrogate, is_high_surrogate, is_low_surrogate.
  intros H. apply andb_prop in H. destruct H as [Hv Hs].
  split; [exact Hv|]. apply negb_true_iff in Hs.
  apply andb_false_iff in Hs. destruct Hs as [A|B].
  - apply N.leb_gt in A.
    split; apply andb_false_intro1; apply N.leb_gt; lia.
  - apply N.leb_gt in B.
    split; apply andb_false_intro2; apply N.leb_gt; lia.
Qed.

Lemma below_surrogates_parts (c : char) :
  (c < 55296)%N ->
  valid_char c = true /\ is_high_surrogate c = false
  /\ is_low_surrogate c = false.
Proof.
  intros H. unfold valid_char, is_high_surrogate, is_low_surrogate.
  split; [apply N.ltb_lt; lia|].
  split; apply andb_false_intro1; apply N.leb_gt; lia.
Qed.

Lemma unescape_lt (e ch : char) : unescape e = Some ch -> (ch < 55296)%N.
Proof.
  unfold unescape.
  repeat match goal with
         | |- context [if ?b then _ else _] => destruct b
         end; intros [= <-]; lia.
Qed.

(** What [scanstring] reads from a text of scalars is well formed, and
    it begins with a low surrogate only when the text begins with the
    escape of one. *)
Lemma scanstring_output (n : nat) :
  forall s v rest,
    (List.length s <= n)%nat ->
    scalar_text s = true ->
    scanstring s = Some (v, rest) ->
    well_formed v = true /\ scalar_text rest = true
    /\ (head_low v = true -> low_escape_ahead s = true).
Proof.
  induction n as [|n IH]; intros s v rest Hlen Hok H.
  { destruct s; [discriminate H | simpl in Hlen; lia]. }
  destruct s as [|c r]; [discriminate H|].
  cbn [scanstring] in H. cbn [List.length] in Hlen.
  unfold scalar_text in Hok. cbn [forallb] in Hok.
  apply andb_prop in Hok. destruct Hok as [Hc Hr].
  fold (scalar_text r) in Hr.
  destruct (scalar_parts c Hc) as [Hcv [Hch Hcl]].
  destruct (c =? 34)%N eqn:E34.
  { injection H as <- <-. repeat split; [exact Hr | discriminate]. }
  destruct (c =? 92)%N eqn:E92.
  2:{ destruct (c <? 32)%N; [discriminate H|].
      apply cons_to_some in H. destruct H as [v' [H ->]].
      destruct (IH r v' rest ltac:(lia) Hr H) as [W [R _]].
      split; [|split; [exact R|]].
      - apply well_formed_cons_intro; try assumption. congruence.
      - cbn [head_low]. congruence. }
  apply N.eqb_eq in E92. subst c.
  destruct r as [|e r1]; [discriminate H|].
  unfold scalar_text in Hr. cbn [forallb] in Hr.
  apply andb_prop in Hr. destruct Hr as [_ Hr1]. fold (scalar_text r1) in Hr1.
  cbn [List.length] in Hlen.
  destruct (e =? 117)%N eqn:Eu.
  2:{ destruct (unescape e) as [ch|] eqn:Eun; [|discriminate H].
      apply cons_to_some in H. destruct H as [v' [H ->]].
      destruct (IH r1 v' rest ltac:(lia) Hr1 H) as [W [R _]].
      destruct (below_surrogates_parts ch (unescape_lt e ch Eun))
        as [A [B C]].
      split; [|split; [exact R|]].
      - apply well_formed_cons_intro; try assumption. congruence.
      - cbn [head_low]. congruence. }
  apply N.eqb_eq in Eu. subst e.
  destruct r1 as [|a [|b [|c1 [|d r2]]]]; try discriminate H.
  assert (Hr2 : scalar_text r2 = true).
  { unfold scalar_text in *. cbn [forallb] in Hr1.
    repeat (apply andb_prop in Hr1; destruct Hr1 as [_ Hr1]). exact Hr1. }
  cbn [List.length] in Hlen.
  destruct (decode_uXXXX a b c1 d) as [uni|] eqn:Ed; [|discriminate H].
  pose proof (decode_uXXXX_lt a b c1 d uni Ed) as Hlt.
  assert (Hplain :
            (is_high_surrogate uni = true -> low_escape_ahead r2 = false) ->
            cons_to uni (scanstring r2) = Some (v, rest) ->
            well_formed v = true /\ scalar_text rest = true
            /\ (head_low v = true ->
                low_escape_ahead (92%N :: 117%N :: a :: b :: c1 :: d :: r2)
                = true)).
  { intros Hahead Hv. apply cons_to_some in Hv. destruct Hv as [v' [Hv ->]].
    destruct (IH r2 v' rest ltac:(lia) Hr2 Hv) as [W [R Hh]].
    split; [|split; [exact R|]].
    - apply well_formed_cons_intro; try assumption.
      + apply N.ltb_lt. lia.
      + intros Hhi. destruct (head_low v') eqn:Ev; [|reflexivity].
        rewrite (Hh eq_refl) in Hahead. now apply Hahead.
    - cbn [head_low low_escape_ahead]. intros Hl.
      change ((92 =? 92)%N) with true. change ((117 =? 117)%N) with true.
      cbn [andb]. now rewrite Ed. }
  destruct (is_high_surrogate uni) eqn:Eh;
    [|now apply Hplain].
  destruct r2 as [|bs [|u [|a2 [|b2 [|c2 [|d2 r3]]]]]];
    try (apply Hplain; [intros _; cbn [low_escape_ahead];
                        now rewrite ?andb_false_r | exact H]).
  destruct ((bs =? 92)%N && (u =? 117)%N) eqn:Ebu.
  2:{ apply Hplain; [|exact H]. intros _. cbn [low_escape_ahead].
      rewrite andb_assoc, Ebu. reflexivity. }
  destruct (decode_uXXXX a2 b2 c2 d2) as [uni2|] eqn:Ed2; [|discriminate H].
  destruct (is_low_surrogate uni2) eqn:El.
  2:{ apply Hplain; [|exact H]. intros _. cbn [low_escape_ahead].
      rewrite Ed2, El. now rewrite !andb_false_r. }
  apply cons_to_some in H. destruct H as [v' [H ->]].
  assert (Hr3 : scalar_text r3 = true).
  { unfold scalar_text in *. cbn [forallb] in Hr2.
    repeat (apply andb_prop in Hr2; destruct Hr2 as [_ Hr2]). exact Hr2. }
  cbn [List.length] in Hlen.
  destruct (IH r3 v' rest ltac:(lia) Hr3 H) as [W [R _]].
  destruct (join_surrogates_astral uni uni2 Eh El) as [J1 J2].
  assert (Jh : is_high_surrogate (join_surrogates uni uni2) = false).
  { unfold is_high_surrogate. apply andb_false_intro2. apply N.leb_gt. lia. }
  assert (Jl : is_low_surrogate (join_surrogates uni uni2) = false).
  { unfold is_low_surrogate. apply andb_false_intro2. apply N.leb_gt. lia. }
  split; [|split; [exact R|]].
  - apply well_formed_cons_intro; try assumption.
    + apply N.ltb_lt. lia.
    + congruence.
  - cbn [head_low]. congruence.
Qed.

Lemma scanstring_well_formed (s v rest : str) :
  scalar_text s = true -> scanstring s = Some (v, rest) ->
  well_formed v = true /\ scalar_text rest = true.
Proof.
  intros Hok H.
  destruct (scanstring_output (List.length s) s v rest (le_n _) Hok H)
    as [W [R _]].
  now split.
Qed.

End Reading.

Section Values.

Variable rt : Runtime.

Lemma scalar_text_tail (c : char) (s : str) :
  scalar_text (c :: s) = true -> scalar_text s = true.
Proof.
  unfold scalar_text. cbn [forallb]. intros H.
  apply andb_prop in H. tauto.
Qed.

Lemma skip_ws_scalar (s : str) :
  scalar_text s = true -> scalar_text (skip_ws s) = true.
Proof.
  induction s as [|c s IH]; intros H; [reflexivity|].
  cbn [skip_ws]. destruct (is_ws c); [|exact H].
  apply IH. now apply scalar_text_tail in H.
Qed.

Lemma strip_prefix_scalar (p : str) :
  forall s r, strip_prefix p s = Some r ->
              scalar_text s = true -> scalar_text r = true.
Proof.
  induction p as [|x p IH]; intros s r H Hs.
  - destruct s; injection H as <-; exact Hs.
  - destruct s as [|y s]; [discriminate H|].
    cbn [strip_prefix] in H. destruct (char_eqb x y); [|discriminate H].
    apply (IH s r H). now apply scalar_text_tail in Hs.
Qed.

Lemma span_digits_scalar (s : str) :
  scalar_text s = true -> scalar_text (snd (span_digits s)) = true.
Proof.
  induction s as [|c s IH]; intros H; [reflexivity|].
  cbn [span_digits]. destruct (is_digit09 c); [|exact H].
  apply scalar_text_tail in H. specialize (IH H).
  destruct (span_digits s). exact IH.
Qed.

Lemma take_sign_scalar (s : str) :
  scalar_text s = true -> scalar_text (snd (take_sign s)) = true.
Proof.
  intros H. unfold take_sign. destruct s as [|c r]; [exact H|].
  destruct (c =? 45)%N; [|exact H]. now apply scalar_text_tail in H.
Qed.

Lemma take_int_scalar (s ds r : str) :
  take_int s = Some (ds, r) -> scalar_text s = true -> scalar_text r = true.
Proof.
  unfold take_int. destruct s as [|c s']; [discriminate|].
  intros H Hs. apply scalar_text_tail in Hs.
  destruct (is_digit09 c); [|discriminate H].
  destruct (c =? 48)%N.
  - injection H as _ <-. exact Hs.
  - pose proof (span_digits_scalar s' Hs) as Hd.
    destruct (span_digits s'). injection H as _ <-. exact Hd.
Qed.

Lemma take_frac_scalar (s : str) :
  scalar_text s = true -> scalar_text (snd (take_frac s)) = true.
Proof.
  intros H. unfold take_frac. destruct s as [|c r]; [exact H|].
  destruct (c =? 46)%N; [|exact H].
  pose proof (span_digits_scalar r (scalar_text_tail _ _ H)) as Hd.
  destruct (span_digits r) as [[|x ds] rest]; [exact H | exact Hd].
Qed.

Lemma take_exp_scalar (s : str) :
  scalar_text s = true -> scalar_text (snd (take_exp s)) = true.
Proof.
  intros H. unfold take_exp. destruct s as [|c r]; [exact H|].
  destruct ((c =? 101)%N || (c =? 69)%N); [|exact H].
  pose proof (scalar_text_tail _ _ H) as Hr.
  assert (Hr' : scalar_text
                  (snd (match r with
                        | g :: r1 =>
                            if (g =? 45)%N || (g =? 43)%N then ([g], r1)
                            else ([], r)
                        | [] => ([], r)
                        end)) = true).
  { destruct r as [|g r1]; [exact Hr|].
    destruct ((g =? 45)%N || (g =? 43)%N); [|exact Hr].
    now apply scalar_text_tail in Hr. }
  destruct (match r with
            | g :: r1 =>
                if (g =? 45)%N || (g =? 43)%N then ([g], r1) else ([], r)
            | [] => ([], r)
            end) as [sg r'].
  cbn [snd] in Hr'.
  pose proof (span_digits_scalar r' Hr') as Hd.
  destruct (span_digits r') as [[|x ds] rest]; [exact H | exact Hd].
Qed.

Lemma match_number_output (s : str) (v : json) (rest : str) :
  scalar_text s = true -> match_number s = Some (v, rest) ->
  json_well_formed v = true /\ scalar_text rest = true.
Proof.
  intros Hs. unfold match_number.
  pose proof (take_sign_scalar s Hs) as H1.
  destruct (take_sign s) as [sign s1]. cbn [snd] in H1.
  destruct (take_int s1) as [[int_part s2]|] eqn:Ei; [|discriminate].
  pose proof (take_int_scalar _ _ _ Ei H1) as H2.
  pose proof (take_frac_scalar s2 H2) as H3.
  destruct (take_frac s2) as [frac s3]. cbn [snd] in H3.
  pose proof (take_exp_scalar s3 H3) as H4.
  destruct (take_exp s3) as [expo s4]. cbn [snd] in H4.
  destruct frac, expo; intros [= <- <-]; now split.
Qed.

Lemma scan_atom_output (s : str) (v : json) (rest : str) :
  scalar_text s = true -> scan_atom s = Some (v, rest) ->
  json_well_formed v = true /\ scalar_text rest = true.
Proof.
  intros Hs. unfold scan_atom.
  destruct (strip_prefix (lit "null") s) as [r|] eqn:E1.
  { intros [= <- <-]. split; [reflexivity|].
    exact (strip_prefix_scalar _ _ _ E1 Hs). }
  destruct (strip_prefix (lit "true") s) as [r|] eqn:E2.
  { intros [= <- <-]. split; [reflexivity|].
    exact (strip_prefix_scalar _ _ _ E2 Hs). }
  destruct (strip_prefix (lit "false") s) as [r|] eqn:E3.
  { intros [= <- <-]. split; [reflexivity|].
    exact (strip_prefix_scalar _ _ _ E3 Hs). }
  destruct (match_number s) as [[v' r]|] eqn:E4.
  { intros [= <- <-]. exact (match_number_output s v' r Hs E4). }
  destruct (strip_prefix (lit "NaN") s) as [r|] eqn:E5.
  { intros [= <- <-]. split; [reflexivity|].
    exact (strip_prefix_scalar _ _ _ E5 Hs). }
  destruct (strip_prefix (lit "Infinity") s) as [r|] eqn:E6.
  { intros [= <- <-]. split; [reflexivity|].
    exact (strip_prefix_scalar _ _ _ E6 Hs). }
  destruct (strip_prefix (lit "-Infinity") s) as [r|] eqn:E7; [|discriminate].
  intros [= <- <-]. split; [reflexivity|].
  exact (strip_prefix_scalar _ _ _ E7 Hs).
Qed.

Lemma dict_set_well_formed (k : str) (v : json) (d : list (str * json)) :
  well_formed k = true -> json_well_formed v = true ->
  forallb member_well_formed d = true ->
  forallb member_well_formed (dict_set k v d) = true.
Proof.
  intros Hk Hv. induction d as [|[k' v'] d IH]; intros Hd.
  - cbn [dict_set forallb]. unfold member_well_formed. cbn [fst snd].
    now rewrite Hk, Hv.
  - cbn [forallb] in Hd. apply andb_prop in Hd. destruct Hd as [Hm Hd].
    cbn [dict_set]. destruct (str_eqb k' k).
    + cbn [forallb]. rewrite Hd. unfold member_well_formed in *.
      cbn [fst snd] in *. apply andb_prop in Hm. destruct Hm as [Hm _].
      now rewrite Hm, Hv.
    + cbn [forallb]. now rewrite Hm, IH.
Qed.

Lemma dict_of_pairs_well_formed (pairs : list (str * json)) :
  forallb member_well_formed pairs = true ->
  forallb member_well_formed (dict_of_pairs pairs) = true.
Proof.
  unfold dict_of_pairs.
  assert (G : forall d, forallb member_well_formed d = true ->
                        forallb member_well_formed pairs = true ->
                        forallb member_well_formed
                          (fold_left (fun d kv => dict_set (fst kv) (snd kv) d)
                                     pairs d) = true).
  { induction pairs as [|[k v] pairs IH]; intros d Hd Hp; [exact Hd|].
    cbn [forallb] in Hp. apply andb_prop in Hp. destruct Hp as [Hm Hp].
    cbn [fold_left fst snd]. apply IH; [|exact Hp].
    unfold member_well_formed in Hm. cbn [fst snd] in Hm.
    apply andb_prop in Hm. destruct Hm as [Hk Hv].
    now apply dict_set_well_formed. }
  now apply G.
Qed.

Lemma forallb_rev {A} (f : A -> bool) (l : list A) :
  forallb f l = true -> forallb f (rev l) = true.
Proof.
  rewrite !forallb_forall. intros H x Hx. apply H. now apply in_rev.
Qed.

(** Every string of a value read from a text of scalars is well
    formed. *)
Lemma scan_output (fuel : nat) :
  (forall s v rest,
      scalar_text s = true -> scan_once fuel s = Some (v, rest) ->
      json_well_formed v = true /\ scalar_text rest = true)
  /\ (forall s pairs v rest,
         scalar_text s = true ->
         forallb member_well_formed pairs = true ->
         JSONObject fuel s pairs = Some (v, rest) ->
         json_well_formed v = true /\ scalar_text rest = true)
  /\ (forall s values v rest,
         scalar_text s = true ->
         forallb json_well_formed values = true ->
         JSONArray fuel s values = Some (v, rest) ->
         json_well_formed v = true /\ scalar_text rest = true).
Proof.
  induction fuel as [|fuel [IHv [IHo IHa]]].
  { repeat split; intros; discriminate. }
  split; [|split].
  - intros s v rest Hs H. destruct s as [|c r]; [discriminate H|].
    cbn [scan_once] in H. pose proof (scalar_text_tail _ _ Hs) as Hr.
    destruct (c =? 34)%N.
    { destruct (scanstring r) as [[w rest']|] eqn:E; [|discriminate H].
      injection H as <- <-.
      exact (scanstring_well_formed r w rest' Hr E). }
    destruct (c =? 123)%N.
    { pose proof (skip_ws_scalar r Hr) as Hk.
      destruct (skip_ws r) as [|c2 r2]; [discriminate H|].
      destruct (c2 =? 125)%N.
      - injection H as <- <-. split; [reflexivity|].
        now apply scalar_text_tail in Hk.
      - exact (IHo _ [] _ _ Hk eq_refl H). }
    destruct (c =? 91)%N.
    { pose proof (skip_ws_scalar r Hr) as Hk.
      destruct (skip_ws r) as [|c2 r2]; [discriminate H|].
      destruct (c2 =? 93)%N.
      - injection H as <- <-. split; [reflexivity|].
        now apply scalar_text_tail in Hk.
      - exact (IHa _ [] _ _ Hk eq_refl H). }
    exact (scan_atom_output _ _ _ Hs H).
  - intros s pairs v rest Hs Hp H. destruct s as [|q r]; [discriminate H|].
    cbn [JSONObject] in H. pose proof (scalar_text_tail _ _ Hs) as Hr.
    destruct (q =? 34)%N; [|discriminate H].
    destruct (scanstring r) as [[key r1]|] eqn:E; [|discriminate H].
    destruct (scanstring_well_formed r key r1 Hr E) as [Hkey Hr1].
    pose proof (skip_ws_scalar r1 Hr1) as Hk1.
    destruct (skip_ws r1) as [|colon r2]; [discriminate H|].
    destruct (colon =? 58)%N; [|discriminate H].
    pose proof (skip_ws_scalar r2 (scalar_text_tail _ _ Hk1)) as Hk2.
    destruct (scan_once fuel (skip_ws r2)) as [[value r3]|] eqn:Ev;
      [|discriminate H].
    destruct (IHv _ _ _ Hk2 Ev) as [Hval Hr3].
    pose proof (skip_ws_scalar r3 Hr3) as Hk3.
    destruct (skip_ws r3) as [|c r4]; [discriminate H|].
    pose proof (scalar_text_tail _ _ Hk3) as Hr4.
    assert (Hpairs : forallb member_well_formed ((key, value) :: pairs) = true).
    { cbn [forallb]. unfold member_well_formed at 1. cbn [fst snd].
      now rewrite Hkey, Hval, Hp. }
    destruct (c =? 125)%N.
    + injection H as <- <-. split; [|exact Hr4].
      cbn [json_well_formed]. apply dict_of_pairs_well_formed.
      exact (forallb_rev member_well_formed _ Hpairs).
    + destruct (c =? 44)%N; [|discriminate H].
      exact (IHo _ _ _ _ (skip_ws_scalar r4 Hr4) Hpairs H).
  - intros s values v rest Hs Hvs H. cbn [JSONArray] in H.
    destruct (scan_once fuel s) as [[value r1]|] eqn:Ev; [|discriminate H].
    destruct (IHv _ _ _ Hs Ev) as [Hval Hr1].
    pose proof (skip_ws_scalar r1 Hr1) as Hk1.
    destruct (skip_ws r1) as [|c r2]; [discriminate H|].
    pose proof (scalar_text_tail _ _ Hk1) as Hr2.
    assert (Hvalues : forallb json_well_formed (value :: values) = true).
    { cbn [forallb]. now rewrite Hval, Hvs. }
    destruct (c =? 93)%N.
    + injection H as <- <-. split; [|exact Hr2].
      cbn [json_well_formed].
      exact (forallb_rev json_well_formed _ Hvalues).
    + destruct (c =? 44)%N; [|discriminate H].
      exact (IHa _ _ _ _ (skip_ws_scalar r2 Hr2) Hvalues H).
Qed.

Lemma json_loads_well_formed (text : str) (v : json) :
  scalar_text text = true -> json_loads text = Some v ->
  json_well_formed v = true.
Proof.
  intros Ht. unfold json_loads.
  assert (G : match scan_once (2 * List.length text + 1) (skip_ws text) with
              | Some (v0, rest) =>
                  match skip_ws rest with
                  | [] => Some v0
                  | _ :: _ => None
                  end
              | None => None
              end = Some v -> json_well_formed v = true).
  { destruct (scan_once _ _) as [[v0 rest]|] eqn:E; [|discriminate].
    destruct (proj1 (scan_output _) _ _ _ (skip_ws_scalar text Ht) E)
      as [Hv _].
    destruct (skip_ws rest); [|discriminate]. now intros [= <-]. }
  destruct text as [|c text']; [exact G|].
  destruct (c =? 65279)%N eqn:Eb.
  - apply N.eqb_eq in Eb. subst c. discriminate.
  - intros H. apply G. rewrite <- H. clear -Eb.
    destruct c as [|p]; [reflexivity|].
    repeat (destruct p as [p|p|]; try reflexivity).
Qed.

Lemma store_well_formed (entries : list HistoryEntry) :
  json_well_formed (store entries) = forallb well_formed_entry entries.
Proof.
  unfold store. cbn [json_well_formed]. induction entries as [|e es IH];
    [reflexivity|].
  cbn [List.map forallb]. rewrite IH. f_equal.
  unfold entry_json, history_entry, well_formed_entry.
  cbn [json_well_formed forallb fst snd].
  replace (well_formed (lit "password")) with true by reflexivity.
  replace (well_formed (lit "timestamp")) with true by reflexivity.
  replace (well_formed (lit "strength")) with true by reflexivity.
  cbn [andb]. rewrite andb_true_r. now rewrite andb_assoc.
Qed.

(** A store loaded from a text file has well-formed entries. *)
Lemma loaded_store_is_well_formed (fs : filesystem) (entries : list HistoryEntry) :
  (forall text, fs history_path = Present text -> scalar_text text = true) ->
  load_history fs = Returned (store entries) ->
  forallb well_formed_entry entries = true.
Proof.
  intros Hfile. unfold load_history, open_read, json_load.
  destruct (fs history_path) as [| |text] eqn:E.
  - intros [= H]. destruct entries; [reflexivity|discriminate H].
  - discriminate.
  - destruct (json_loads text) as [v|] eqn:El; [|discriminate].
    intros [= ->]. rewrite <- store_well_formed.
    exact (json_loads_well_formed text _ (Hfile text eq_refl) El).
Qed.


End Values.

Section Fuel.

Lemma cons_to_shorter (c : char) (r : option (str * str)) (v rest : str) (n : nat) :
  (forall v', r = Some (v', rest) -> (List.length rest < n)%nat) ->
  cons_to c r = Some (v, rest) -> (List.length rest < n)%nat.
Proof.
  intros Hr H. apply cons_to_some in H. destruct H as [v' [H _]].
  now apply (Hr v').
Qed.

(** [scanstring] consumes the closing quote at least. *)
Lemma scanstring_shorter (n : nat) :
  forall s v rest,
    (List.length s <= n)%nat ->
    scanstring s = Some (v, rest) ->
    (List.length rest < List.length s)%nat.
Proof.
  induction n as [|n IH]; intros s v rest Hlen H.
  { destruct s; [discriminate H | simpl in Hlen; lia]. }
  assert (Hrec : forall c r, (List.length r <= n)%nat ->
                             cons_to c (scanstring r) = Some (v, rest) ->
                             (List.length rest < List.length r)%nat).
  { intros c r Hr Hc. apply cons_to_some in Hc. destruct Hc as [v' [Hc _]].
    exact (IH r v' rest Hr Hc). }
  destruct s as [|c r]; [discriminate H|].
  cbn [scanstring] in H. cbn [List.length] in *.
  destruct (c =? 34)%N. { injection H as <- <-. lia. }
  destruct (c =? 92)%N.
  2:{ destruct (c <? 32)%N; [discriminate H|].
      apply Hrec in H; lia. }
  destruct r as [|e r1]; [discriminate H|]. cbn [List.length] in *.
  destruct (e =? 117)%N.
  2:{ destruct (unescape e); [|discriminate H]. apply Hrec in H; lia. }
  destruct r1 as [|a [|b [|c1 [|d r2]]]]; try discriminate H.
  cbn [List.length] in *.
  destruct (decode_uXXXX a b c1 d) as [uni|]; [|discriminate H].
  destruct (is_high_surrogate uni); [|apply Hrec in H; lia].
  destruct r2 as [|bs [|u [|a2 [|b2 [|c2 [|d2 r3]]]]]];
    try (apply Hrec in H; cbn [List.length] in *; lia).
  cbn [List.length] in *.
  destruct ((bs =? 92)%N && (u =? 117)%N);
    [|apply Hrec in H; cbn [List.length] in *; lia].
  destruct (decode_uXXXX a2 b2 c2 d2) as [uni2|]; [|discriminate H].
  destruct (is_low_surrogate uni2); apply Hrec in H; cbn [List.length] in *; lia.
Qed.

Lemma skip_ws_length (s : str) :
  (List.length (skip_ws s) <= List.length s)%nat.
Proof.
  induction s as [|c s IH]; [simpl; lia|].
  cbn [skip_ws]. destruct (is_ws c); simpl in *; lia.
Qed.

Lemma strip_prefix_length (p : str) :
  forall s r, strip_prefix p s = Some r ->
              List.length s = (List.length p + List.length r)%nat.
Proof.
  induction p as [|x p IH]; intros s r H.
  - destruct s; injection H as <-; reflexivity.
  - destruct s as [|y s]; [discriminate H|].
    cbn [strip_prefix] in H. destruct (char_eqb x y); [|discriminate H].
    cbn [List.length]. now rewrite (IH s r H).
Qed.

Lemma span_digits_length (s : str) :
  (List.length (snd (span_digits s)) <= List.length s)%nat.
Proof.
  induction s as [|c s IH]; [simpl; lia|].
  cbn [span_digits]. destruct (is_digit09 c); [|simpl; lia].
  destruct (span_digits s). simpl in *. lia.
Qed.

Lemma take_sign_length (s : str) :
  (List.length (snd (take_sign s)) <= List.length s)%nat.
Proof.
  unfold take_sign. destruct s as [|c r]; [simpl; lia|].
  destruct (c =? 45)%N; simpl; lia.
Qed.

Lemma take_int_length (s ds r : str) :
  take_int s = Some (ds, r) -> (List.length r < List.length s)%nat.
Proof.
  unfold take_int. destruct s as [|c s']; [discriminate|].
  destruct (is_digit09 c); [|discriminate].
  destruct (c =? 48)%N.
  - intros [= _ <-]. simpl. lia.
  - pose proof (span_digits_length s') as Hd.
    destruct (span_digits s'). intros [= _ <-]. simpl in *. lia.
Qed.

Lemma take_frac_length (s : str) :
  (List.length (snd (take_frac s)) <= List.length s)%nat.
Proof.
  unfold take_frac. destruct s as [|c r]; [simpl; lia|].
  destruct (c =? 46)%N; [|simpl; lia].
  pose proof (span_digits_length r) as Hd.
  destruct (span_digits r) as [[|x ds] rest]; simpl in *; lia.
Qed.

Lemma take_exp_length (s : str) :
  (List.length (snd (take_exp s)) <= List.length s)%nat.
Proof.
  unfold take_exp. destruct s as [|c r]; [simpl; lia|].
  destruct ((c =? 101)%N || (c =? 69)%N); [|simpl; lia].
  assert (Hr' : (List.length
                   (snd (match r with
                         | g :: r1 =>
                             if (g =? 45)%N || (g =? 43)%N then ([g], r1)
                             else ([], r)
                         | [] => ([], r)
                         end)) <= List.length r)%nat).
  { destruct r as [|g r1]; [simpl; lia|].
    destruct ((g =? 45)%N || (g =? 43)%N); simpl; lia. }
  destruct (match r with
            | g :: r1 =>
                if (g =? 45)%N || (g =? 43)%N then ([g], r1) else ([], r)
            | [] => ([], r)
            end) as [sg r'].
  cbn [snd] in Hr'.
  pose proof (span_digits_length r') as Hd.
  destruct (span_digits r') as [[|x ds] rest]; simpl in *; lia.
Qed.

Lemma match_number_shorter (s : str) (v : json) (rest : str) :
  match_number s = Some (v, rest) -> (List.length rest < List.length s)%nat.
Proof.
  unfold match_number.
  pose proof (take_sign_length s) as H1.
  destruct (take_sign s) as [sign s1]. cbn [snd] in H1.
  destruct (take_int s1) as [[int_part s2]|] eqn:Ei; [|discriminate].
  pose proof (take_int_length _ _ _ Ei) as H2.
  pose proof (take_frac_length s2) as H3.
  destruct (take_frac s2) as [frac s3]. cbn [snd] in H3.
  pose proof (take_exp_length s3) as H4.
  destruct (take_exp s3) as [expo s4]. cbn [snd] in H4.
  destruct frac, expo; intros [= _ <-]; lia.
Qed.

Lemma scan_atom_shorter (s : str) (v : json) (rest : str) :
  scan_atom s = Some (v, rest) -> (List.length rest < List.length s)%nat.
Proof.
  unfold scan_atom.
  repeat match goal with
         | |- context [strip_prefix ?p s] =>
             let E := fresh "E" in
             destruct (strip_prefix p s) eqn:E;
             [ intros [= _ <-]; apply strip_prefix_length in E;
               simpl in E; lia | ]
         | |- context [match_number s] =>
             let E := fresh "E" in
             destruct (match_number s) as [[? ?]|] eqn:E;
             [ intros [= _ <-]; now apply match_number_shorter in E | ]
         end.
  discriminate.
Qed.

(** The fuel a scan needs is bounded by what it consumes: a scan that
    succeeds with some fuel succeeds, with the same result, with any
    fuel of twice the number of characters consumed. *)
Lemma scan_fuel (n : nat) :
  (forall s v rest,
      scan_once n s = Some (v, rest) ->
      (List.length rest < List.length s)%nat
      /\ forall m, (2 * (List.length s - List.length rest) - 1 <= m)%nat ->
                   scan_once m s = Some (v, rest))
  /\ (forall s pairs v rest,
         JSONObject n s pairs = Some (v, rest) ->
         (List.length rest < List.length s)%nat
         /\ forall m, (2 * (List.length s - List.length rest) <= m)%nat ->
                      JSONObject m s pairs = Some (v, rest))
  /\ (forall s values v rest,
         JSONArray n s values = Some (v, rest) ->
         (List.length rest < List.length s)%nat
         /\ forall m, (2 * (List.length s - List.length rest) <= m)%nat ->
                      JSONArray m s values = Some (v, rest)).
Proof.
  induction n as [|n [IHv [IHo IHa]]].
  { repeat split; intros; discriminate. }
  split; [|split].
  - intros s v rest H. destruct s as [|c r]; [discriminate H|].
    cbn [scan_once] in H. cbn [List.length].
    destruct (c =? 34)%N eqn:E34.
    { destruct (scanstring r) as [[w rest']|] eqn:E; [|discriminate H].
      injection H as <- <-.
      pose proof (scanstring_shorter _ r w rest' (le_n _) E) as Hl.
      split; [lia|]. intros m Hm. destruct m as [|m]; [lia|].
      cbn [scan_once]. now rewrite E34, E. }
    destruct (c =? 123)%N eqn:E123.
    { pose proof (skip_ws_length r) as Hk.
      destruct (skip_ws r) as [|c2 r2] eqn:Es; [discriminate H|].
      cbn [List.length] in Hk.
      destruct (c2 =? 125)%N eqn:E125.
      - injection H as <- <-. split; [lia|].
        intros m Hm. destruct m as [|m]; [lia|].
        cbn [scan_once]. now rewrite E34, E123, Es, E125.
      - destruct (IHo _ _ _ _ H) as [Hl Hf]. cbn [List.length] in Hl, Hf.
        split; [lia|]. intros m Hm. destruct m as [|m]; [lia|].
        cbn [scan_once]. rewrite E34, E123, Es, E125.
        apply Hf. lia. }
    destruct (c =? 91)%N eqn:E91.
    { pose proof (skip_ws_length r) as Hk.
      destruct (skip_ws r) as [|c2 r2] eqn:Es; [discriminate H|].
      cbn [List.length] in Hk.
      destruct (c2 =? 93)%N eqn:E93.
      - injection H as <- <-. split; [lia|].
        intros m Hm. destruct m as [|m]; [lia|].
        cbn [scan_once]. now rewrite E34, E123, E91, Es, E93.
      - destruct (IHa _ _ _ _ H) as [Hl Hf]. cbn [List.length] in Hl, Hf.
        split; [lia|]. intros m Hm. destruct m as [|m]; [lia|].
        cbn [scan_once]. rewrite E34, E123, E91, Es, E93.
        apply Hf. lia. }
    pose proof (scan_atom_shorter _ _ _ H) as Hl. cbn [List.length] in Hl.
    split; [lia|]. intros m Hm. destruct m as [|m]; [lia|].
    cbn [scan_once]. now rewrite E34, E123, E91.
  - intros s pairs v rest H. destruct s as [|q r]; [discriminate H|].
    cbn [JSONObject] in H. cbn [List.length].
    destruct (q =? 34)%N eqn:Eq; [|discriminate H].
    destruct (scanstring r) as [[key r1]|] eqn:E; [|discriminate H].
    pose proof (scanstring_shorter _ r key r1 (le_n _) E) as L1.
    pose proof (skip_ws_length r1) as K1.
    destruct (skip_ws r1) as [|colon r2] eqn:Es1; [discriminate H|].
    cbn [List.length] in K1.
    destruct (colon =? 58)%N eqn:Ec; [|discriminate H].
    pose proof (skip_ws_length r2) as K2.
    destruct (scan_once n (skip_ws r2)) as [[value r3]|] eqn:Ev;
      [|discriminate H].
    destruct (IHv _ _ _ Ev) as [L3 F3].
    pose proof (skip_ws_length r3) as K3.
    destruct (skip_ws r3) as [|c r4] eqn:Es3; [discriminate H|].
    cbn [List.length] in K3.
    destruct (c =? 125)%N eqn:E125.
    + injection H as <- <-. split; [lia|].
      intros m Hm. destruct m as [|m]; [lia|].
      cbn [JSONObject]. rewrite Eq, E, Es1, Ec.
      rewrite (F3 m) by lia. now rewrite Es3, E125.
    + destruct (c =? 44)%N eqn:E44; [|discriminate H].
      pose proof (skip_ws_length r4) as K4.
      destruct (IHo _ _ _ _ H) as [L5 F5].
      split; [lia|].
      intros m Hm. destruct m as [|m]; [lia|].
      cbn [JSONObject]. rewrite Eq, E, Es1, Ec.
      rewrite (F3 m) by lia. rewrite Es3, E125, E44.
      apply F5. lia.
  - intros s values v rest H. cbn [JSONArray] in H.
    destruct (scan_once n s) as [[value r1]|] eqn:Ev; [|discriminate H].
    destruct (IHv _ _ _ Ev) as [L1 F1].
    pose proof (skip_ws_length r1) as K1.
    destruct (skip_ws r1) as [|c r2] eqn:Es1; [discriminate H|].
    cbn [List.length] in K1.
    destruct (c =? 93)%N eqn:E93.
    + injection H as <- <-. split; [lia|].
      intros m Hm. destruct m as [|m]; [lia|].
      cbn [JSONArray]. rewrite (F1 m) by lia. now rewrite Es1, E93.
    + destruct (c =? 44)%N eqn:E44; [|discriminate H].
      pose proof (skip_ws_length r2) as K2.
      destruct (IHa _ _ _ _ H) as [L3 F3].
      split; [lia|].
      intros m Hm. destruct m as [|m]; [lia|].
      cbn [JSONArray]. rewrite (F1 m) by lia. rewrite Es1, E93, E44.
      apply F3. lia.
Qed.

(** [json_loads] never fails for want of fuel: a text that some fuel
    reads as one value is read by [json_loads] as that value. *)
Lemma json_loads_enough_fuel (fuel : nat) (text : str) (v : json) (rest : str) :
  scan_once fuel (skip_ws text) = Some (v, rest) ->
  skip_ws rest = [] ->
  json_loads text = Some v.
Proof.
  intros H Hrest.
  destruct (proj1 (scan_fuel fuel) _ _ _ H) as [Hl Hf].
  pose proof (skip_ws_length text) as Hk.
  assert (G : scan_once (2 * List.length text + 1) (skip_ws text)
              = Some (v, rest)) by (apply Hf; lia).
  unfold json_loads.
  destruct text as [|c text']; [now rewrite G, Hrest|].
  destruct (c =? 65279)%N eqn:Eb.
  - apply N.eqb_eq in Eb. subst c. exfalso.
    destruct fuel; discriminate H.
  - transitivity
      (match scan_once (2 * List.length (c :: text') + 1) (skip_ws (c :: text')) with
       | Some (v0, rest0) =>
           match skip_ws rest0 with
           | [] => Some v0
           | _ :: _ => None
           end
       | None => None
       end); [|now rewrite G, Hrest].
    clear -Eb. destruct c as [|p]; [reflexivity|].
    repeat (destruct p as [p|p|]; try reflexivity).
Qed.

(** So a text that [json_loads] refuses is no JSON document, whatever
    the fuel. *)
Lemma json_loads_refuses (text : str) :
  json_loads text = None ->
  forall fuel v rest,
    scan_once fuel (skip_ws text) = Some (v, rest) -> skip_ws rest <> [].
Proof.
  intros H fuel v rest Hs Hr.
  rewrite (json_loads_enough_fuel fuel text v rest Hs Hr) in H.
  discriminate H.
Qed.

End Fuel.

Section ExportTable.

Variable rt : Runtime.










End ExportTable.

Section ReadingTables.

Variable rt : Runtime.







End ReadingTables.

Section Lines.

Variable rt : Runtime.






End Lines.

Section Runs.

Variable rt : Runtime.






End Runs.

Section Persistence.

Variable rt : Runtime.




End Persistence.

(** * Where the program departs from the specification *)




(** * The theorems at sample inputs *)

Lemma symbol_point_needs_the_literal_set_witness :
  (forall c, In c (repeat 126%N 30) -> ~ In c symbols)
  /\ existsb in_symbols (repeat 126%N 30) = false.
Proof.
  assert (H : forall c, In c (repeat 126%N 30) -> ~ In c symbols).
  { intros c Hc Hin. apply repeat_spec in Hc. subst c.
    apply (proj2 (char_in_In _ _)) in Hin. discriminate Hin. }
  split; [exact H|].
  exact (proj1 (symbol_point_needs_the_literal_set ascii_runtime
                  (repeat 126%N 30) (fresh 12 true true true true) H)).
Defined.

Lemma generate_password_length_and_alphabet_witness :
  any_class (fresh 12 true true true true) = true
  /\ 1 <= length_var (fresh 12 true true true true)
  /\ len (password_entry
            (snd (generate_password ascii_runtime (fun i => (7 * i + 3)%nat)
                    sample_now (fresh 12 true true true true)))) = 12.
Proof.
  assert (H1 : any_class (fresh 12 true true true true) = true)
    by reflexivity.
  assert (H2 : 1 <= length_var (fresh 12 true true true true))
    by (simpl; lia).
  split; [exact H1|]. split; [exact H2|].
  exact (proj1 (generate_password_length_and_alphabet ascii_runtime
                  (fun i => (7 * i + 3)%nat) sample_now
                  (fresh 12 true true true true) H1 H2)).
Defined.


Lemma no_class_selected_is_rejected_witness :
  any_class (fresh 12 false false false false) = false
  /\ invalid_options
       (generate_password ascii_runtime (fun _ => 0%nat) sample_now
          (fresh 12 false false false false))
       (fresh 12 false false false false).
Proof.
  assert (H : any_class (fresh 12 false false false false) = false)
    by reflexivity.
  split; [exact H|].
  exact (proj1 (no_class_selected_is_rejected ascii_runtime (fun _ => 0%nat)
                  sample_now (fresh 12 false false false false) H)).
Defined.


Lemma history_is_append_only_witness :
  build_chars (holding [sample_entry]) <> []
  /\ history (snd (update_history_display ascii_runtime
                     (snd (generate_password ascii_runtime (fun i => i)
                             sample_now (holding [sample_entry])))))
     = history (snd (generate_password ascii_runtime (fun i => i)
                       sample_now (holding [sample_entry]))).
Proof.
  assert (H1 : build_chars (holding [sample_entry]) <> []) by discriminate.
  assert (H2 : generate_password ascii_runtime (fun i => i) sample_now
                 (holding [sample_entry])
               = (Returned tt,
                  snd (generate_password ascii_runtime (fun i => i) sample_now
                         (holding [sample_entry]))))
    by (vm_compute; reflexivity).
  split; [exact H1|].
  exact (proj1 (proj2 (history_is_append_only ascii_runtime (fun i => i)
                         sample_now (holding [sample_entry]) _ H1 H2))).
Defined.


